(** * GPX_GeoCoding: a shallow embedding of [main.py]

    The program flattens a GPX track into a chronologically sorted list of
    points, samples it at a fixed time interval, reverse-geocodes every
    sampled point, deduplicates the address records and writes them as JSON.

    Conventions of the embedding:
    - a [datetime] is an absolute instant, counted in microseconds (the
      resolution of Python's [datetime]); gpxpy parses every timestamp into a
      timezone-aware value, so subtraction and comparison are those of the
      instants;
    - a Python exception is a value of [exn]; a computation that may raise has
      type [result A]; a computation that may also log has type [M A];
    - the collaborators the program does not implement (file system, GPX
      parser, constructor and lookup method of the geocoding client) are
      Variables of the section that uses them. *)

From Stdlib Require Import ZArith List String Lia Floats.PrimFloat.
From stdpp Require Import base list strings gmap sorting.

Set Warnings "-register-all".
Local Open Scope Z_scope.

(** ** Exceptions, results and the logging monad *)

Inductive exn : Type :=
| TypeError
| IndexError
| KeyError
| ValueError
| FileNotFoundError
| PermissionError
| OtherException (msg : string).

Inductive result (A : Type) : Type :=
| Ok (a : A)
| Raise (e : exn).
Arguments Ok {A} a.
Arguments Raise {A} e.

#[global] Instance result_ret : MRet result := fun A a => Ok a.
#[global] Instance result_bind : MBind result :=
  fun A B f m => match m with Ok a => f a | Raise e => Raise e end.

#[global] Instance result_fmap : FMap result :=
  fun A B f m => match m with Ok a => Ok (f a) | Raise e => Raise e end.

(** Python's [for x in xs: acc = body(acc, x)] where the body may raise. *)
Fixpoint for_each {A S : Type} (body : S -> A -> result S) (xs : list A) (s : S)
  : result S :=
  match xs with
  | [] => Ok s
  | x :: xs' => s' ← body s x; for_each body xs' s'
  end.

(** ** JSON documents and the Python values [json.dumps] receives *)

Inductive json : Type :=
| JString (s : string)
| JBool (b : bool)
| JArray (items : list json)
| JObject (members : list (string * json)).

Inductive pyval : Type :=
| PyStr (s : string)
| PyBool (b : bool)
| PyList (items : list pyval)
| PyTuple (items : list pyval)
| PyDict (items : list (string * pyval)).

(** [json.dumps]: lists and tuples both become arrays, a dict becomes an
    object whose members keep the dict's insertion order. The indentation and
    [ensure_ascii=False] only affect the text rendering of this document. *)
Fixpoint json_dumps (v : pyval) : json :=
  match v with
  | PyStr s => JString s
  | PyBool b => JBool b
  | PyList items => JArray (map json_dumps items)
  | PyTuple items => JArray (map json_dumps items)
  | PyDict items => JObject (map (fun kv => (fst kv, json_dumps (snd kv))) items)
  end.

(** ** Logging and output events

    Every [logger.info/warning/error] call site of the program is one
    constructor; the f-string arguments are kept as data. *)

Inductive level : Type := INFO | WARNING | ERROR.

Inductive message : Type :=
| FileNotFound (file_path : string)
| NoPermission (file_path : string)
| FailedToLoadGpx (e : exn)
| FailedToExtractPoints (e : exn)
| NoPointsToSelectFrom
| FailedToSelectPoints (e : exn)
| StartingReverseGeocoding
| NoGeocodeResult (lat lng : float)
| FailedToReverseGeocode (e : exn)
| SavedResults (output_file : string)
| FailedToSaveResults (e : exn)
| TotalPoints (n : nat)
| TotalSelectedPoints (n : nat)
| ProcessingPoints (n : nat)
| CompletedSuccessfully
| MainFunctionFailed (e : exn).

(** What a run leaves behind: log records and the operations on files that
    returned. [FileOpened]: the file was opened for writing, so it exists and
    is empty. [FileWritten]: the text of the document was handed to the open
    file. [FileClosed]: the file was flushed and closed, so it holds what was
    written to it; a file that was opened and not closed is left empty or
    partially written. *)
Inductive event : Type :=
| Logged (lv : level) (m : message)
| FileOpened (path : string)
| FileWritten (path : string) (document : json)
| FileClosed (path : string).

(** A computation that emits events and then returns or raises. *)
Definition M (A : Type) : Type := list event * result A.

#[global] Instance M_ret : MRet M := fun A a => ([], Ok a).
#[global] Instance M_bind : MBind M :=
  fun A B f m =>
    match m with
    | (l, Ok a) => let (l', r) := f a in (l ++ l', r)
    | (l, Raise e) => (l, Raise e)
    end.

Definition log (lv : level) (m : message) : M unit := ([Logged lv m], Ok tt).
Definition lift {A} (r : result A) : M A := ([], r).
Definition raise {A} (e : exn) : M A := ([], Raise e).

(** [try: body  except Exception as e: handler(e)]. *)
Definition try_except {A} (body : M A) (handler : exn -> M A) : M A :=
  match body with
  | (l, Raise e) => let (l', r) := handler e in (l ++ l', r)
  | done => done
  end.

(** The pattern every stage uses: log the failure, then re-raise it. *)
Definition log_and_reraise {A} (mk : exn -> message) (body : M A) : M A :=
  try_except body (fun e => _ ← log ERROR (mk e); raise e).

(** Monadic [for] loop with logging. *)
Fixpoint for_each_M {A S : Type} (body : S -> A -> M S) (xs : list A) (s : S)
  : M S :=
  match xs with
  | [] => mret s
  | x :: xs' => s' ← body s x; for_each_M body xs' s'
  end.

(** ** Python sequence indexing *)

(** [l[i]] for a non-negative [i]. *)
Definition py_index {A} (l : list A) (i : nat) : result A :=
  match l !! i with
  | Some x => Ok x
  | None => Raise IndexError
  end.

(** [l[-1]]. *)
Definition py_last {A} (l : list A) : result A :=
  match last l with
  | Some x => Ok x
  | None => Raise IndexError
  end.

Module Datetime.

(** An instant, in microseconds. *)
Definition datetime := Z.

(** [datetime.timedelta]: normalised so that [0 <= seconds < 86400] and
    [0 <= microseconds < 1000000]; only [days] carries the sign. *)
Record timedelta : Type := Timedelta {
  days : Z;
  seconds : Z;
  microseconds : Z
}.

(** The normalisation of [timedelta.__new__], by two floor divisions. *)
Definition of_microseconds (us : Z) : timedelta :=
  let (s, u) := Z.div_eucl us 1000000 in
  let (d, s') := Z.div_eucl s 86400 in
  {| days := d; seconds := s'; microseconds := u |}.

Definition total_microseconds (d : timedelta) : Z :=
  (days d * 86400 + seconds d) * 1000000 + microseconds d.

(** [a - b] on two instants. *)
Definition sub (a b : datetime) : timedelta := of_microseconds (a - b).

(** [a - b] where either operand may be [None]: Python raises [TypeError]. *)
Definition sub_opt (a b : option datetime) : result timedelta :=
  match a, b with
  | Some x, Some y => Ok (sub x y)
  | _, _ => Raise TypeError
  end.

(** [a < b] on sort keys; [None] is not ordered against anything. *)
Definition lt_opt (a b : option datetime) : result bool :=
  match a, b with
  | Some x, Some y => Ok (x <? y)
  | _, _ => Raise TypeError
  end.

End Datetime.

(** ** The track structure produced by the parser *)

Record TrackPoint : Type := {
  latitude : float;
  longitude : float;
  time : option Datetime.datetime
}.

Record Segment : Type := { points : list TrackPoint }.
Record Track : Type := { segments : list Segment }.
Record GPX : Type := { tracks : list Track }.

(** The sampler and the extractor read nothing of a point but its [time]
    attribute; [HasTime] is that interface, so that the same code also runs on
    points tagged with their position in the input. *)
Class HasTime (P : Type) : Type := time_of : P -> option Datetime.datetime.
#[global] Hint Mode HasTime ! : typeclass_instances.

#[global] Instance TrackPoint_time : HasTime TrackPoint := time.
#[global] Instance tagged_time {P} `{HasTime P} : HasTime (nat * P) :=
  fun ip => time_of (snd ip).

(** ** [select_points]: the interval sampler *)

Section Sampler.
Context {P : Type} `{HasTime P}.

Record sampler_state : Type := SamplerState {
  processing_points : list P;
  time_sec_passed : Z
}.

(** One iteration of [for i in range(1, len(points))]. *)
Definition scan_body (points : list P) (interval_minutes : Z)
    (st : sampler_state) (i : nat) : result sampler_state :=
  p_i ← py_index points i;
  p_prev ← py_index points (i - 1);
  d ← Datetime.sub_opt (time_of p_i) (time_of p_prev);
  let time_diff_seconds := Datetime.seconds d in
  let passed := time_sec_passed st + time_diff_seconds in
  if interval_minutes * 60 <=? passed
  then Ok {| processing_points := processing_points st ++ [p_i];
             time_sec_passed := 0 |}
  else Ok {| processing_points := processing_points st;
             time_sec_passed := passed |}.

(** The main scan, from [processing_points = [points[0]]]. *)
Definition main_scan (points : list P) (interval_minutes : Z)
  : result sampler_state :=
  p0 ← py_index points 0;
  for_each (scan_body points interval_minutes)
           (seq 1 (length points - 1))
           {| processing_points := [p0]; time_sec_passed := 0 |}.

(** The condition of the post-scan [if]; [and] short-circuits. *)
Definition last_point_due (points retained : list P) (interval_minutes : Z)
  : result bool :=
  if (0 <? length retained)%nat then
    p_last ← py_last points;
    r_last ← py_last retained;
    d ← Datetime.sub_opt (time_of p_last) (time_of r_last);
    Ok (interval_minutes * 60 <=? Datetime.seconds d)
  else Ok false.

(** The body of the [try] block once [points] is known to be non-empty. *)
Definition select_points_nonempty (points : list P) (interval_minutes : Z)
  : result (list P) :=
  st ← main_scan points interval_minutes;
  let retained := processing_points st in
  due ← last_point_due points retained interval_minutes;
  if due : bool then p_last ← py_last points; Ok (retained ++ [p_last])
  else Ok retained.

Definition select_points (points : list P) (interval_minutes : Z)
  : M (list P) :=
  log_and_reraise FailedToSelectPoints
    (match points with
     | [] => _ ← log WARNING NoPointsToSelectFrom; mret []
     | _ => lift (select_points_nonempty points interval_minutes)
     end).

End Sampler.

Arguments sampler_state P : clear implicits.

(** ** [extract_points]: the point extractor *)

Section Sorting.
Context {P : Type} `{HasTime P}.

(** Insertion of [x] into a sorted list, after every element that is not
    greater: the position Python's binary insertion finds with [<] alone. *)
Fixpoint insort (x : P) (l : list P) : result (list P) :=
  match l with
  | [] => Ok [x]
  | y :: l' =>
      lt ← Datetime.lt_opt (time_of x) (time_of y);
      if lt : bool then Ok (x :: y :: l')
      else r ← insort x l'; Ok (y :: r)
  end.

(** [sorted(l, key=lambda x: x.time)], modelled as the insertion of the
    elements from left to right into the sorted prefix (what the builtin does
    on a short list; on a long one it merges runs built that way). The model
    keeps what the program can observe of the builtin: keys are compared with
    [<] only, the sort is stable, a list of fewer than two elements is
    returned without any comparison, on a longer list every key takes part in
    a comparison, and a comparison that involves [None] raises [TypeError]. *)
Definition sorted_by_time (l : list P) : result (list P) :=
  for_each (fun acc x => insort x acc) l [].

End Sorting.

(** The two nested [for] loops with [total_points.extend(segment.points)]. *)
Definition all_points (gpx_data : GPX) : list TrackPoint :=
  fold_left
    (fun total_points track =>
       fold_left (fun total_points segment => total_points ++ points segment)
                 (segments track) total_points)
    (tracks gpx_data) [].

Definition extract_points (gpx_data : GPX) : M (list TrackPoint) :=
  log_and_reraise FailedToExtractPoints
    (lift (sorted_by_time (all_points gpx_data))).

(** ** [reverseGeocode]: geocoding and deduplication *)

Record AddressComponent : Type := {
  long_name : string;
  types : list string
}.

Record GeocodeResult : Type := {
  address_components : list AddressComponent
}.

(** A Python [dict] from strings to strings, in insertion order. *)
Definition dict : Type := list (string * string).

(** [d[k] = v]: an existing key keeps its position, a new key goes last. *)
Fixpoint dict_set (k v : string) (d : dict) : dict :=
  match d with
  | [] => [(k, v)]
  | (k', v') :: d' =>
      if String.eqb k k' then (k, v) :: d' else (k', v') :: dict_set k v d'
  end.

(** [d[k]]. *)
Fixpoint dict_get (k : string) (d : dict) : result string :=
  match d with
  | [] => Raise KeyError
  | (k', v') :: d' => if String.eqb k k' then Ok v' else dict_get k d'
  end.

Definition address_keys : list string :=
  ["country"; "administrative_area_level_1"; "administrative_area_level_2";
   "locality"; "sublocality"].

Definition empty_address : dict :=
  [("country", ""); ("administrative_area_level_1", "");
   ("administrative_area_level_2", ""); ("locality", ""); ("sublocality", "")].

(** [k in component['types']]. *)
Definition has_type (k : string) (component : AddressComponent) : bool :=
  bool_decide (k ∈ types component).

(** The [if/elif] chain over one address component. *)
Definition parse_component (newParsedAddr : dict) (component : AddressComponent)
  : dict :=
  if has_type "country" component then
    dict_set "country" (long_name component) newParsedAddr
  else if has_type "administrative_area_level_1" component then
    dict_set "administrative_area_level_1" (long_name component) newParsedAddr
  else if has_type "administrative_area_level_2" component then
    dict_set "administrative_area_level_2" (long_name component) newParsedAddr
  else if has_type "locality" component then
    dict_set "locality" (long_name component) newParsedAddr
  else if has_type "sublocality" component then
    dict_set "sublocality" (long_name component) newParsedAddr
  else newParsedAddr.

Definition parse_address (candidate : GeocodeResult) : dict :=
  fold_left parse_component (address_components candidate) empty_address.

Definition address : Type := string * string * string * string * string.

Definition address_tuple (newParsedAddr : dict) : result address :=
  c ← dict_get "country" newParsedAddr;
  a1 ← dict_get "administrative_area_level_1" newParsedAddr;
  a2 ← dict_get "administrative_area_level_2" newParsedAddr;
  l ← dict_get "locality" newParsedAddr;
  s ← dict_get "sublocality" newParsedAddr;
  Ok (c, a1, a2, l, s).

Definition result_types : list string :=
  ["administrative_area_level_1"; "administrative_area_level_2"; "sublocality";
   "sublocality_level_2"; "locality"; "administrative_area_level_3"].

Record geocode_state : Type := GeocodeState {
  parsed_points : list dict;
  seen_addresses : gset address
}.

(** What happens to one lookup result. *)
Definition record_result (st : geocode_state) (point : TrackPoint)
    (geocode_result : list GeocodeResult) : M geocode_state :=
  match geocode_result with
  | first :: _ =>
      let newParsedAddr := parse_address first in
      tuple ← lift (address_tuple newParsedAddr);
      if bool_decide (tuple ∉ seen_addresses st) then
        mret {| parsed_points := parsed_points st ++ [newParsedAddr];
                seen_addresses := seen_addresses st ∪ {[tuple]} |}
      else mret st
  | [] =>
      _ ← log WARNING (NoGeocodeResult (latitude point) (longitude point));
      mret st
  end.

Section Geocoder.
(** [gmaps.reverse_geocode(latlng, language=..., result_type=...)]. *)
Variable reverse_geocode :
  float * float -> string -> list string -> result (list GeocodeResult).

Definition geocode_body (st : geocode_state) (point : TrackPoint)
  : M geocode_state :=
  geocode_result ←
    lift (reverse_geocode (latitude point, longitude point) "ja" result_types);
  record_result st point geocode_result.

Definition reverseGeocode (points : list TrackPoint) : M (list dict * bool) :=
  log_and_reraise FailedToReverseGeocode
    (_ ← log INFO StartingReverseGeocoding;
     st ← for_each_M geocode_body points
            {| parsed_points := []; seen_addresses := ∅ |};
     mret (parsed_points st, bool_decide (length (parsed_points st) = 0%nat))).

End Geocoder.

(** ** [save_reversed_geocode_results_json] and [main] *)

Definition py_of_dict (d : dict) : pyval :=
  PyDict (map (fun kv => (fst kv, PyStr (snd kv))) d).

Definition py_of_records (records : list dict) : pyval :=
  PyList (map py_of_dict records).

(** The pair [reverseGeocode] returns, as the Python tuple it is. *)
Definition py_of_geocode_results (r : list dict * bool) : pyval :=
  PyTuple [py_of_records (fst r); PyBool (snd r)].

(** The [reverse_geocode] method of a geocoding client. *)
Definition geocoder : Type :=
  float * float -> string -> list string -> result (list GeocodeResult).

Section Program.
(** [open(file_path, 'r')] followed by [gpxpy.parse]. *)
Variable parse_gpx_file : string -> result GPX.
(** [googlemaps.Client(key=...)]: the constructor checks the key and raises
    when it does not accept it. *)
Variable make_client : string -> result geocoder.
(** The three operations on the output file: [open(output_file, 'w',
    encoding='utf-8')], [f.write(text)] and the flush and close at the end of
    the [with] block. Each either returns or raises. *)
Variable fs_open : string -> result unit.
Variable fs_write : string -> json -> result unit.
Variable fs_close : string -> result unit.

Definition load_gpx_file (file_path : string) : M GPX :=
  try_except (lift (parse_gpx_file file_path))
    (fun e =>
       match e with
       | FileNotFoundError => _ ← log ERROR (FileNotFound file_path); raise e
       | PermissionError => _ ← log ERROR (NoPermission file_path); raise e
       | _ => _ ← log ERROR (FailedToLoadGpx e); raise e
       end).

Definition open_w (output_file : string) : M unit :=
  match fs_open output_file with
  | Ok _ => ([FileOpened output_file], Ok tt)
  | Raise e => ([], Raise e)
  end.

Definition write (output_file : string) (document : json) : M unit :=
  match fs_write output_file document with
  | Ok _ => ([FileWritten output_file document], Ok tt)
  | Raise e => ([], Raise e)
  end.

(** Leaving the [with] block: the file is closed whether the block returned
    or raised, and an exception raised by the close replaces the outcome of
    the block. *)
Definition with_exit {A} (output_file : string) (block : M A) : M A :=
  let (l, r) := block in
  match fs_close output_file with
  | Ok _ => (l ++ [FileClosed output_file], r)
  | Raise e => (l, Raise e)
  end.

(** The argument is whatever the caller passes to [json.dumps]. The success
    message is logged inside the [with] block, before the file is closed. *)
Definition save_reversed_geocode_results_json (parsed_points : pyval)
    (output_file : string) : M unit :=
  try_except
    (_ ← open_w output_file;
     with_exit output_file
       (let parsedJSON := json_dumps parsed_points in
        _ ← write output_file parsedJSON;
        log INFO (SavedResults output_file)))
    (fun e => log ERROR (FailedToSaveResults e)).

(** The [try] statement of [main]. *)
Definition main_try (gmaps : geocoder) (gpx_file output_file : string)
    (point_interval_minutes : Z) : M unit :=
  try_except
    (gpx_data ← load_gpx_file gpx_file;
     total_points ← extract_points gpx_data;
     _ ← log INFO (TotalPoints (length total_points));
     processing_points ← select_points total_points point_interval_minutes;
     _ ← log INFO (TotalSelectedPoints (length processing_points));
     _ ← log INFO (ProcessingPoints (length processing_points));
     reversed_geocode_results ← reverseGeocode gmaps processing_points;
     _ ← save_reversed_geocode_results_json
           (py_of_geocode_results reversed_geocode_results) output_file;
     log INFO CompletedSuccessfully)
    (fun e => log ERROR (MainFunctionFailed e)).

(** [main]. The source fixes [gpx_file], the API key and
    [point_interval_minutes] as literals that the user edits (the file path
    and the key are empty strings as shipped); they are parameters here. The
    client is constructed before the [try] statement, so an exception of the
    constructor leaves [main]. *)
Definition main (gpx_file key : string) (point_interval_minutes : Z) : M unit :=
  let output_file := gpx_file +:+ ".geocoding.json" in
  gmaps ← lift (make_client key);
  main_try gmaps gpx_file output_file point_interval_minutes.

(** What the save step leaves behind, by the outcome of the three file
    operations ([save_trace] proves it of the code). *)
Definition save_events (output_file : string) (document : json) : list event :=
  match fs_open output_file with
  | Raise e => [Logged ERROR (FailedToSaveResults e)]
  | Ok _ =>
      FileOpened output_file ::
      match fs_write output_file document, fs_close output_file with
      | Ok _, Ok _ =>
          [FileWritten output_file document;
           Logged INFO (SavedResults output_file);
           FileClosed output_file]
      | Ok _, Raise e =>
          [FileWritten output_file document;
           Logged INFO (SavedResults output_file);
           Logged ERROR (FailedToSaveResults e)]
      | Raise e, Ok _ =>
          [FileClosed output_file; Logged ERROR (FailedToSaveResults e)]
      | Raise _, Raise e => [Logged ERROR (FailedToSaveResults e)]
      end
  end.

(** The exception of the first of the four stages before the save step that
    raises, if any. *)
Definition stage_failure (gmaps : geocoder) (gpx_file : string)
    (point_interval_minutes : Z) : option exn :=
  match load_gpx_file gpx_file with
  | (_, Raise e) => Some e
  | (_, Ok gpx_data) =>
      match extract_points gpx_data with
      | (_, Raise e) => Some e
      | (_, Ok total_points) =>
          match select_points total_points point_interval_minutes with
          | (_, Raise e) => Some e
          | (_, Ok processing_points) =>
              match reverseGeocode gmaps processing_points with
              | (_, Raise e) => Some e
              | (_, Ok _) => None
              end
          end
      end
  end.

End Program.

(** Whole seconds to microseconds. *)
Definition sec (s : Z) : Datetime.datetime := s * 1000000.

(** The state after one iteration that visits [p] when the difference to the
    point before it is [d]. *)
Definition step_state {P} (interval_minutes : Z) (st : sampler_state P) (p : P)
    (d : Datetime.timedelta) : sampler_state P :=
  let passed := time_sec_passed st + Datetime.seconds d in
  if interval_minutes * 60 <=? passed
  then {| processing_points := processing_points st ++ [p];
          time_sec_passed := 0 |}
  else {| processing_points := processing_points st;
          time_sec_passed := passed |}.

(** The main scan by recursion on the points that remain after [prev]; the
    proofs go by induction on it ([for_each_scan_body] relates it to the index
    loop of the source). *)
Fixpoint scan_from {P} `{HasTime P} (interval_minutes : Z) (prev : P)
    (rest : list P) (st : sampler_state P) : result (sampler_state P) :=
  match rest with
  | [] => Ok st
  | p :: rest' =>
      d ← Datetime.sub_opt (time_of p) (time_of prev);
      scan_from interval_minutes p rest' (step_state interval_minutes st p d)
  end.

(** Relabelling the retained points of a state. *)
Definition map_state {P Q} (f : P -> Q) (st : sampler_state P) : sampler_state Q :=
  {| processing_points := f <$> processing_points st;
     time_sec_passed := time_sec_passed st |}.

(** Every point carries a timestamp. *)
Definition all_timed {P} `{HasTime P} (l : list P) : Prop :=
  Forall (fun p => is_Some (time_of p)) l.

(** [b] is stamped no earlier than [a]. *)
Definition time_le {P} `{HasTime P} (a b : P) : Prop :=
  exists x y, time_of a = Some x /\ time_of b = Some y /\ x <= y.

(** [b] is stamped at least [interval_minutes * 60] seconds after [a]. *)
Definition spaced {P} `{HasTime P} (interval_minutes : Z) (a b : P) : Prop :=
  exists x y, time_of a = Some x /\ time_of b = Some y /\
              interval_minutes * 60 * 1000000 <= y - x.

(** [a] is stamped strictly before [b]. *)
Definition time_lt {P} `{HasTime P} (a b : P) : Prop :=
  exists x y, time_of a = Some x /\ time_of b = Some y /\ x < y.

#[global] Instance datetime_eq_dec : EqDecision Datetime.datetime := Z.eq_dec.

(** The whole seconds from [earlier] to [later], modulo one day. *)
Definition elapsed_seconds_mod_day (later earlier : Datetime.datetime) : Z :=
  ((later - earlier) / 1000000) mod 86400.

(** The points stamped [t], in the order they have in [l]. *)
Definition stamped {P} `{HasTime P} (t : Datetime.datetime) (l : list P)
  : list P :=
  filter (fun p => time_of p = Some t) l.

(** The spec's words for the extractor's input: all points of all segments of
    all sub-tracks, concatenated in traversal order, and the per-segment point
    counts. *)
Definition all_segments (gpx_data : GPX) : list Segment :=
  concat (segments <$> tracks gpx_data).

Definition concatenated_points (gpx_data : GPX) : list TrackPoint :=
  concat (points <$> all_segments gpx_data).

Definition segment_point_counts (gpx_data : GPX) : list nat :=
  (fun segment => length (points segment)) <$> all_segments gpx_data.

(** Python's [enumerate]: every element with its position. Two elements of
    [enumerate l] are equal only if they sit at the same position, so the
    tagged run tells the objects of the input list apart. *)
Fixpoint enumerate_from {A} (n : nat) (l : list A) : list (nat * A) :=
  match l with
  | [] => []
  | x :: l' => (n, x) :: enumerate_from (S n) l'
  end.

Definition enumerate {A} (l : list A) : list (nat * A) := enumerate_from 0 l.

(** The post-scan step appends the last input point although the main scan
    has retained that very point already. *)
Definition double_append (points : list TrackPoint) (interval_minutes : Z)
  : Prop :=
  exists st p_last,
    main_scan (enumerate points) interval_minutes = Ok st /\
    last (enumerate points) = Some p_last /\
    p_last ∈ processing_points st /\
    last_point_due (enumerate points) (processing_points st) interval_minutes
    = Ok true.

(** The record a 5-tuple stands for. *)
Definition address_dict (t : address) : dict :=
  let '(c, a1, a2, l, s) := t in
  [("country", c); ("administrative_area_level_1", a1);
   ("administrative_area_level_2", a2); ("locality", l); ("sublocality", s)].

(** The records the lookups contribute, in lookup order: the first candidate
    of every non-empty response. *)
Definition candidates (responses : list (list GeocodeResult)) : list dict :=
  omap (fun response => parse_address <$> head response) responses.

(** First-occurrence order, in the spec's words: the element at position [i]
    is kept exactly when it does not occur before position [i]. *)
Definition keep_if_first {A} `{EqDecision A} (l : list A) (i : nat) (x : A)
  : option A :=
  if decide (x ∈ take i l) then None else Some x.

Definition first_occurrences {A} `{EqDecision A} (l : list A) : list A :=
  omap id (imap (keep_if_first l) l).

(** The loop invariant of the geocoder after the responses [done]: the
    records are the first occurrences, and a tuple is seen exactly when its
    record is among the candidates. *)
Definition deduplicated (done : list (list GeocodeResult)) (st : geocode_state)
  : Prop :=
  parsed_points st = first_occurrences (candidates done) /\
  forall t, t ∈ seen_addresses st <-> address_dict t ∈ candidates done.

(** The lookup for [point] answers [response]. *)
Definition answers
    (reverse_geocode :
       float * float -> string -> list string -> result (list GeocodeResult))
    (point : TrackPoint) (response : list GeocodeResult) : Prop :=
  reverse_geocode (latitude point, longitude point) "ja" result_types
  = Ok response.

(** A point stamped [t] whole seconds, for the examples. *)
Definition pt (t : Z) : TrackPoint :=
  {| latitude := 0%float; longitude := 0%float; time := Some (sec t) |}.

Definition untimed_point : TrackPoint :=
  {| latitude := 0%float; longitude := 0%float; time := None |}.

Definition single_segment (l : list TrackPoint) : GPX :=
  {| tracks := [ {| segments := [ {| points := l |} ] |} ] |}.

(** An example run: a parser that yields one segment, a geocoder that
    answers by latitude band, and two file systems. *)
Definition at_latitude (lat : float) (t : Z) : TrackPoint :=
  {| latitude := lat; longitude := 0%float; time := Some (sec t) |}.

Definition component (name type : string) : AddressComponent :=
  {| long_name := name; types := [type; "political"] |}.

Definition tokyo : GeocodeResult :=
  {| address_components :=
       [component "Chiyoda" "locality";
        component "Tokyo" "administrative_area_level_1";
        component "Japan" "country"] |}.

Definition osaka : GeocodeResult :=
  {| address_components :=
       [component "Osaka" "administrative_area_level_1";
        component "Japan" "country"] |}.

Definition example_geocoder (latlng : float * float) (language : string)
    (result_type : list string) : result (list GeocodeResult) :=
  if PrimFloat.ltb (fst latlng) 1 then Ok [tokyo; osaka]
  else if PrimFloat.ltb (fst latlng) 2 then Ok []
  else Ok [osaka].

Definition example_points : list TrackPoint :=
  [at_latitude 0 0; at_latitude 1.5 400; at_latitude 0.5 800;
   at_latitude 3 1200].

Definition example_parser (file_path : string) : result GPX :=
  Ok (single_segment example_points).

(** A client constructor that refuses the empty key. *)
Definition example_client (key : string) : result geocoder :=
  if decide (key = "") then Raise ValueError else Ok example_geocoder.

(** File operations that succeed, and ones that fail. *)
Definition fs_ok (path : string) : result unit := Ok tt.
Definition fs_write_ok (path : string) (document : json) : result unit := Ok tt.
Definition fs_denied (path : string) : result unit := Raise PermissionError.
Definition fs_disk_full (path : string) : result unit :=
  Raise (OtherException "No space left on device").

(** Every point is stamped a whole number of seconds, as the timestamps of a
    GPX file usually are. *)
Definition whole_seconds {P} `{HasTime P} (l : list P) : Prop :=
  Forall (fun p => exists s, time_of p = Some (sec s)) l.

(** The warning a lookup without candidates leaves in the log. *)
Definition lookup_warning (point : TrackPoint) (response : list GeocodeResult)
  : list event :=
  match response with
  | [] => [Logged WARNING (NoGeocodeResult (latitude point) (longitude point))]
  | _ :: _ => []
  end.

(** The first of the five keys, in the order of the [if/elif] chain, that is
    among the types of a component. *)
Definition recognized_key (component : AddressComponent) : option string :=
  List.find (fun k => has_type k component) address_keys.

(** The JSON object of a record. *)
Definition address_json (t : address) : json :=
  let '(c, a1, a2, l, s) := t in
  JObject [("country", JString c);
           ("administrative_area_level_1", JString a1);
           ("administrative_area_level_2", JString a2);
           ("locality", JString l); ("sublocality", JString s)].

(** The event is a log record, not an operation on a file. *)
Definition is_logged (ev : event) : Prop :=
  match ev with
  | Logged _ _ => True
  | _ => False
  end.

(** The computation touches no file. *)
Definition logs_only {A} (m : M A) : Prop := Forall is_logged (fst m).

(** The second timestamp is the first moved by a whole number of days. *)
Definition day_shifted (p p' : TrackPoint) : Prop :=
  exists t days,
    time p = Some t /\ time p' = Some (t + days * (86400 * 1000000)).

(** Two tagged points at the same position whose timestamps differ by a whole
    number of days. *)
Definition same_position_day_shifted (a b : nat * TrackPoint) : Prop :=
  a.1 = b.1 /\ day_shifted a.2 b.2.

(** The positions of the input points the sampler retains. *)
Definition retained_positions (points : list TrackPoint)
    (interval_minutes : Z) : result (list nat) :=
  fmap (M:=list) fst <$> select_points_nonempty (enumerate points) interval_minutes.

(** * Properties *)

(** ** Timedeltas *)

Module DatetimeFacts.
Import Datetime.

Lemma seconds_of_microseconds us :
  seconds (of_microseconds us) = (us / 1000000) mod 86400.
Proof.
  unfold of_microseconds, Z.div, Z.modulo.
  destruct (Z.div_eucl us 1000000) as [s u]; simpl.
  destruct (Z.div_eucl s 86400) as [d s']; reflexivity.
Qed.

Lemma total_of_microseconds us :
  total_microseconds (of_microseconds us) = us.
Proof.
  unfold of_microseconds, total_microseconds.
  pose proof (Z.div_eucl_eq us 1000000 ltac:(lia)) as E1.
  destruct (Z.div_eucl us 1000000) as [s u].
  pose proof (Z.div_eucl_eq s 86400 ltac:(lia)) as E2.
  destruct (Z.div_eucl s 86400) as [d s']; simpl. lia.
Qed.

Lemma seconds_sub a b : seconds (sub a b) = ((a - b) / 1000000) mod 86400.
Proof. apply seconds_of_microseconds. Qed.

Lemma seconds_range a b : 0 <= seconds (sub a b) < 86400.
Proof. rewrite seconds_sub. apply Z.mod_pos_bound. lia. Qed.

Lemma seconds_sub_diag a : seconds (sub a a) = 0.
Proof. rewrite seconds_sub, Z.sub_diag. reflexivity. Qed.

(** On a forward step the seconds field never exceeds the elapsed time. *)
Lemma seconds_le_elapsed a b :
  b <= a -> seconds (sub a b) * 1000000 <= a - b.
Proof.
  intros Hle. rewrite seconds_sub.
  assert (0 <= (a - b) / 1000000) by (apply Z.div_pos; lia).
  pose proof (Z.mod_le ((a - b) / 1000000) 86400 ltac:(lia) ltac:(lia)).
  pose proof (Z.mul_div_le (a - b) 1000000 ltac:(lia)). lia.
Qed.

End DatetimeFacts.

(** ** Indexing *)

Lemma py_index_lookup {A} (l : list A) i x : l !! i = Some x -> py_index l i = Ok x.
Proof. unfold py_index. intros ->. reflexivity. Qed.

Lemma py_last_snoc {A} (l : list A) x : py_last (l ++ [x]) = Ok x.
Proof. unfold py_last. rewrite last_snoc. reflexivity. Qed.

(** ** The interval sampler *)

Section SamplerFacts.
Context {P : Type} `{HasTime P}.
Implicit Types (points rest : list P) (st : sampler_state P).

Lemma scan_body_at iv pre prev p rest st :
  scan_body (pre ++ prev :: p :: rest) iv st (S (length pre))
  = d ← Datetime.sub_opt (time_of p) (time_of prev); Ok (step_state iv st p d).
Proof.
  unfold scan_body.
  rewrite (py_index_lookup _ (S (length pre)) p); cycle 1.
  { rewrite lookup_app_r by lia.
    replace (S (length pre) - length pre)%nat with 1%nat by lia. reflexivity. }
  rewrite (py_index_lookup _ (S (length pre) - 1) prev); cycle 1.
  { rewrite lookup_app_r by lia.
    replace (S (length pre) - 1 - length pre)%nat with 0%nat by lia.
    reflexivity. }
  cbn [mbind result_bind].
  destruct (Datetime.sub_opt (time_of p) (time_of prev)) as [d|e];
    [|reflexivity].
  cbn [mbind result_bind]. unfold step_state.
  destruct (iv * 60 <=? time_sec_passed st + Datetime.seconds d); reflexivity.
Qed.

Lemma scan_from_cons iv prev p rest st :
  scan_from iv prev (p :: rest) st
  = d ← Datetime.sub_opt (time_of p) (time_of prev);
    scan_from iv p rest (step_state iv st p d).
Proof. reflexivity. Qed.

Lemma for_each_scan_body iv rest : forall pre prev st,
  for_each (scan_body (pre ++ prev :: rest) iv)
           (seq (S (length pre)) (length rest)) st
  = scan_from iv prev rest st.
Proof.
  induction rest as [|p rest IH]; intros pre prev st; [reflexivity|].
  rewrite scan_from_cons.
  cbn [length seq for_each]. rewrite scan_body_at.
  destruct (Datetime.sub_opt (time_of p) (time_of prev)) as [d|e];
    [|reflexivity].
  cbn [mbind result_bind].
  specialize (IH (pre ++ [prev]) p (step_state iv st p d)).
  rewrite <- app_assoc in IH. cbn [app] in IH.
  rewrite length_app in IH. cbn [length] in IH.
  replace (S (length pre + 1)) with (S (S (length pre))) in IH by lia.
  exact IH.
Qed.

(** The index loop of the source is the structural scan. *)
Lemma main_scan_cons iv p0 rest :
  main_scan (p0 :: rest) iv
  = scan_from iv p0 rest {| processing_points := [p0]; time_sec_passed := 0 |}.
Proof.
  unfold main_scan. cbn [py_index lookup list_lookup mbind result_bind length].
  replace (S (length rest) - 1)%nat with (length rest) by lia.
  apply (for_each_scan_body iv rest [] p0).
Qed.

Lemma select_points_nonempty_cons iv p0 rest :
  select_points_nonempty (p0 :: rest) iv
  = st ← scan_from iv p0 rest
           {| processing_points := [p0]; time_sec_passed := 0 |};
    due ← last_point_due (p0 :: rest) (processing_points st) iv;
    if due : bool
    then p_last ← py_last (p0 :: rest); Ok (processing_points st ++ [p_last])
    else Ok (processing_points st).
Proof. unfold select_points_nonempty. rewrite main_scan_cons. reflexivity. Qed.

(** The condition of the post-scan test once its operands are known. *)
Lemma last_point_due_eq iv points front r p_last tl tr :
  last points = Some p_last -> time_of p_last = Some tl ->
  time_of r = Some tr ->
  last_point_due points (front ++ [r]) iv
  = Ok (iv * 60 <=? Datetime.seconds (Datetime.sub tl tr)).
Proof.
  intros Hl Htl Htr. unfold last_point_due.
  rewrite length_app, Nat.add_comm. cbn [length Nat.add Nat.ltb Nat.leb].
  rewrite py_last_snoc. unfold py_last. rewrite Hl.
  cbn [mbind result_bind]. rewrite Htl, Htr. reflexivity.
Qed.

(** The scan only ever appends, and what it appends is a subsequence of the
    points it visits. *)
Lemma scan_from_extends iv rest : forall prev st st',
  scan_from iv prev rest st = Ok st' ->
  exists more, processing_points st' = processing_points st ++ more
               /\ more `sublist_of` rest.
Proof.
  induction rest as [|p rest IH]; intros prev st st' Hscan.
  - injection Hscan as <-. exists []. rewrite app_nil_r. split; [done|constructor].
  - rewrite scan_from_cons in Hscan.
    destruct (Datetime.sub_opt (time_of p) (time_of prev)) as [d|e];
      [|discriminate].
    cbn [mbind result_bind] in Hscan.
    apply IH in Hscan as (more & Hmore & Hsub).
    unfold step_state in Hmore.
    destruct (iv * 60 <=? time_sec_passed st + Datetime.seconds d);
      cbn [processing_points] in Hmore.
    + exists (p :: more). rewrite Hmore, <- app_assoc. split; [done|].
      by apply sublist_skip.
    + exists more. split; [done|]. by apply sublist_cons.
Qed.

(** On timestamped points the scan runs to completion. *)
Lemma scan_from_total iv rest : forall prev st,
  all_timed (prev :: rest) -> exists st', scan_from iv prev rest st = Ok st'.
Proof.
  induction rest as [|p rest IH]; intros prev st Ht; [by eexists|].
  rewrite scan_from_cons.
  apply Forall_cons in Ht as [[tp Htp] Ht].
  pose proof Ht as Ht'. apply Forall_cons in Ht' as [[t Hp] _].
  rewrite Htp, Hp. cbn [Datetime.sub_opt mbind result_bind].
  by apply IH.
Qed.

(** The accumulated gap never exceeds the time elapsed since the point
    retained last, so two neighbours of the retained list are spaced. *)
Lemma scan_from_spaced iv rest : forall prev st front r tp tr,
  Sorted time_le (prev :: rest) ->
  time_of prev = Some tp ->
  processing_points st = front ++ [r] -> time_of r = Some tr ->
  0 <= time_sec_passed st -> time_sec_passed st * 1000000 <= tp - tr ->
  Sorted (spaced iv) (processing_points st) ->
  exists st' front' r' tr' p_last tl,
    scan_from iv prev rest st = Ok st' /\
    processing_points st' = front' ++ [r'] /\ time_of r' = Some tr' /\
    last (prev :: rest) = Some p_last /\ time_of p_last = Some tl /\
    0 <= time_sec_passed st' /\ time_sec_passed st' * 1000000 <= tl - tr' /\
    Sorted (spaced iv) (processing_points st').
Proof.
  induction rest as [|p rest IH];
    intros prev st front r tp tr Hsorted Htp Hproc Htr Hpos Hacc Hsp.
  - exists st, front, r, tr, prev, tp. by repeat split.
  - apply Sorted_inv in Hsorted as [Hsorted Hhd].
    apply HdRel_inv in Hhd as (x & y & Hx & Hy & Hxy).
    rewrite Htp in Hx. injection Hx as <-.
    rewrite scan_from_cons, Htp, Hy.
    cbn [Datetime.sub_opt mbind result_bind].
    pose proof (DatetimeFacts.seconds_range y tp) as Hrange.
    pose proof (DatetimeFacts.seconds_le_elapsed y tp Hxy) as Hle.
    rewrite last_cons_cons.
    unfold step_state.
    destruct (iv * 60 <=? time_sec_passed st + Datetime.seconds (Datetime.sub y tp))
      eqn:Hdue.
    + apply Z.leb_le in Hdue.
      apply (IH p _ (processing_points st) p y y);
        cbn [processing_points time_sec_passed]; auto; try lia.
      apply Sorted_snoc; [done|].
      rewrite Hproc. constructor. exists tr, y. repeat split; auto. lia.
    + apply Z.leb_gt in Hdue.
      apply (IH p _ front r y tr);
        cbn [processing_points time_sec_passed]; auto; lia.
Qed.

(** Spacing of the whole output, the appended last point included. *)
Lemma select_points_nonempty_spaced iv p0 rest :
  Sorted time_le (p0 :: rest) -> is_Some (time_of p0) ->
  exists out,
    select_points_nonempty (p0 :: rest) iv = Ok out /\
    Sorted (spaced iv) out.
Proof.
  intros Hsorted [t0 Ht0]. rewrite select_points_nonempty_cons.
  destruct (scan_from_spaced iv rest p0
              {| processing_points := [p0]; time_sec_passed := 0 |}
              [] p0 t0 t0)
    as (st' & front' & r' & tr' & p_last & tl & -> & Hproc & Htr' & Hlast
        & Htl & Hpos & Hacc & Hsp); auto; try (cbn; lia).
  { cbn. repeat constructor. }
  cbn [mbind result_bind]. rewrite Hproc.
  rewrite (last_point_due_eq iv _ front' r' p_last tl tr') by done.
  cbn [mbind result_bind].
  destruct (iv * 60 <=? Datetime.seconds (Datetime.sub tl tr')) eqn:Hdue.
  - unfold py_last. rewrite Hlast. cbn [mbind result_bind].
    eexists; split; [reflexivity|].
    rewrite <- Hproc. apply Sorted_snoc; [done|].
    rewrite Hproc. constructor. exists tr', tl. repeat split; auto.
    apply Z.leb_le in Hdue.
    pose proof (DatetimeFacts.seconds_le_elapsed tl tr' ltac:(lia)). lia.
  - eexists; split; [reflexivity|]. by rewrite <- Hproc.
Qed.

(** The first input point heads the output, whatever the interval. *)
Lemma select_points_nonempty_head iv p0 rest :
  all_timed (p0 :: rest) ->
  exists out', select_points_nonempty (p0 :: rest) iv = Ok (p0 :: out').
Proof.
  intros Ht. rewrite select_points_nonempty_cons.
  destruct (scan_from_total iv rest p0
              {| processing_points := [p0]; time_sec_passed := 0 |} Ht)
    as [st' Hscan].
  rewrite Hscan. cbn [mbind result_bind].
  apply scan_from_extends in Hscan as (more & Hmore & Hsub).
  cbn [processing_points] in Hmore. rewrite Hmore.
  (* the operands of the post-scan test are timestamped *)
  assert (exists p_last tl, last (p0 :: rest) = Some p_last
                            /\ time_of p_last = Some tl) as (pl & tl & Hl & Htl).
  { destruct (last (p0 :: rest)) as [pl|] eqn:Hl.
    - assert (pl ∈ p0 :: rest) as Hin by by apply last_Some_elem_of.
      unfold all_timed in Ht. rewrite Forall_forall in Ht.
      destruct (Ht pl Hin) as [tl Htl]. eauto.
    - by apply last_None in Hl. }
  assert (exists front r tr, [p0] ++ more = front ++ [r]
                             /\ time_of r = Some tr) as (fr & r & tr & Hfr & Htr).
  { destruct (last ([p0] ++ more)) as [r|] eqn:Hr.
    - assert (r ∈ p0 :: rest) as Hin.
      { apply last_Some_elem_of in Hr. cbn in Hr.
        apply elem_of_cons in Hr as [->|Hr]; [left|right].
        by eapply elem_of_sublist. }
      unfold all_timed in Ht. rewrite Forall_forall in Ht.
      destruct (Ht r Hin) as [tr Htr].
      apply last_Some in Hr as [fr Hfr]. eauto.
    - by apply last_None in Hr. }
  rewrite Hfr, (last_point_due_eq iv _ fr r pl tl tr) by done.
  cbn [mbind result_bind]. rewrite <- Hfr.
  destruct (iv * 60 <=? Datetime.seconds (Datetime.sub tl tr)).
  - unfold py_last. rewrite Hl. cbn [mbind result_bind]. by eexists.
  - by eexists.
Qed.

(** A subsequence of a duplicate-free list that holds its last element
    ends with it. *)
Lemma sublist_ends_with (l k : list P) x :
  l `sublist_of` k ++ [x] -> NoDup (k ++ [x]) -> x ∈ l ->
  exists l', l = l' ++ [x].
Proof.
  intros Hsub Hnd Hin.
  apply sublist_app_r in Hsub as (l1 & l2 & -> & Hl1 & Hl2).
  apply sublist_cons_r in Hl2 as [Hl2|(l' & -> & Hl')].
  - apply sublist_nil_r in Hl2 as ->. rewrite app_nil_r in Hin.
    apply NoDup_app in Hnd as (_ & Hdisj & _).
    exfalso. apply (Hdisj x); [by eapply elem_of_sublist|by left].
  - apply sublist_nil_r in Hl' as ->. by exists l1.
Qed.

(** With a positive interval the post-scan test fails on a point the scan
    has retained: its distance to itself is zero seconds. *)
Lemma retained_last_point_not_due iv points st p_last :
  0 < iv -> NoDup points ->
  main_scan points iv = Ok st -> last points = Some p_last ->
  p_last ∈ processing_points st ->
  last_point_due points (processing_points st) iv <> Ok true.
Proof.
  intros Hiv Hnd Hscan Hlast Hin.
  destruct points as [|p0 rest]; [discriminate|].
  rewrite main_scan_cons in Hscan.
  apply scan_from_extends in Hscan as (more & Hmore & Hsub).
  cbn [processing_points] in Hmore.
  pose proof Hlast as Hk. apply last_Some in Hk as [k Hk].
  destruct (sublist_ends_with (processing_points st) k p_last) as [l' Hl'].
  { rewrite <- Hk, Hmore. by apply sublist_skip. }
  { by rewrite <- Hk. }
  { done. }
  rewrite Hl'. unfold last_point_due.
  rewrite length_app, Nat.add_comm. cbn [length Nat.add Nat.ltb Nat.leb].
  rewrite py_last_snoc. unfold py_last. rewrite Hlast.
  cbn [mbind result_bind].
  destruct (time_of p_last) as [t|]; [|discriminate].
  cbn [Datetime.sub_opt mbind result_bind].
  rewrite DatetimeFacts.seconds_sub_diag.
  destruct (iv * 60 <=? 0) eqn:E; [apply Z.leb_le in E; lia|discriminate].
Qed.

(** With a positive interval the output repeats no input point. *)
Lemma select_points_nonempty_NoDup iv points out :
  0 < iv -> NoDup points ->
  select_points_nonempty points iv = Ok out -> NoDup out.
Proof.
  intros Hiv Hnd. unfold select_points_nonempty.
  destruct (main_scan points iv) as [st|e] eqn:Hscan; [|discriminate].
  cbn [mbind result_bind].
  assert (NoDup (processing_points st)) as Hproc.
  { destruct points as [|p0 rest]; [discriminate|].
    rewrite main_scan_cons in Hscan.
    apply scan_from_extends in Hscan as (more & -> & Hsub).
    assert (processing_points
              {| processing_points := [p0]; time_sec_passed := 0 |} ++ more
            `sublist_of` p0 :: rest) as Hsub'
      by (cbn [processing_points app]; by apply sublist_skip).
    eapply sublist_NoDup; eassumption. }
  destruct (last_point_due points (processing_points st) iv) as [[|]|e] eqn:Hdue;
    cbn [mbind result_bind]; [|by intros [= <-]|discriminate].
  unfold py_last. destruct (last points) as [p_last|] eqn:Hlast; [|discriminate].
  cbn [mbind result_bind]. intros [= <-].
  apply NoDup_app. repeat split; [done| |apply NoDup_singleton].
  intros x Hx Hx'. apply list_elem_of_singleton in Hx' as ->.
  by apply (retained_last_point_not_due iv points st p_last).
Qed.

End SamplerFacts.

(** ** The point extractor *)

Section SortingFacts.
Context {P : Type} `{HasTime P}.
Implicit Types (l acc : list P).

#[local] Instance time_le_trans : Transitive (time_le (P:=P)).
Proof.
  intros a b c (x & y & Ha & Hb & Hxy) (y' & z & Hb' & Hc & Hyz).
  rewrite Hb in Hb'. injection Hb' as <-. exists x, z. repeat split; auto. lia.
Qed.

(** Where [insort] puts [x]: behind everything stamped no later, before
    everything stamped later. *)
Lemma insort_spec x tx l :
  time_of x = Some tx -> all_timed l -> StronglySorted time_le l ->
  exists l1 l2,
    insort x l = Ok (l1 ++ x :: l2) /\ l = l1 ++ l2 /\
    Forall (fun y => time_le y x) l1 /\ Forall (time_lt x) l2.
Proof.
  intros Hx Ht Hs. induction l as [|y l IH].
  - exists [], []. by repeat split.
  - apply Forall_cons in Ht as [[ty Hy] Ht].
    apply StronglySorted_inv in Hs as [Hs Hy_le].
    cbn [insort]. rewrite Hx, Hy. cbn [Datetime.lt_opt mbind result_bind].
    destruct (tx <? ty) eqn:Hlt.
    + apply Z.ltb_lt in Hlt. exists [], (y :: l). repeat split; auto.
      constructor; [by exists tx, ty|].
      eapply Forall_impl; [exact Hy_le|].
      intros z (a & b & Ha & Hb & Hab). rewrite Hy in Ha. injection Ha as <-.
      exists tx, b. repeat split; auto. lia.
    + apply Z.ltb_ge in Hlt.
      destruct (IH Ht Hs) as (l1 & l2 & -> & -> & H1 & H2).
      exists (y :: l1), l2. repeat split; auto.
      constructor; [by exists ty, tx|done].
Qed.

Lemma stamped_app t l1 l2 : stamped t (l1 ++ l2) = stamped t l1 ++ stamped t l2.
Proof. apply filter_app. Qed.

Lemma stamped_later t x tx l :
  time_of x = Some tx -> Forall (time_lt x) l -> tx = t -> stamped t l = [].
Proof.
  intros Hx Hl <-. induction Hl as [|y l (a & b & Ha & Hb & Hab) _ IH]; [done|].
  unfold stamped. rewrite filter_cons_False; [exact IH|].
  rewrite Hb. intros [= ->]. rewrite Hx in Ha. injection Ha as <-. lia.
Qed.

(** Inserting [x] keeps the relative order of equally stamped points: [x]
    comes last among them. *)
Lemma stamped_insert t x tx l1 l2 :
  time_of x = Some tx -> Forall (time_lt x) l2 ->
  stamped t (l1 ++ x :: l2) = stamped t (l1 ++ l2) ++ stamped t [x].
Proof.
  intros Hx Hl2. rewrite !stamped_app. change (x :: l2) with ([x] ++ l2).
  rewrite stamped_app, <- !app_assoc. f_equal.
  destruct (decide (tx = t)) as [E|E].
  - by rewrite (stamped_later t x tx l2), app_nil_r.
  - unfold stamped at 1 4. rewrite filter_cons_False; [by rewrite app_nil_r|].
    rewrite Hx. by intros [= ?].
Qed.

Lemma insort_sorted x l1 l2 :
  StronglySorted time_le (l1 ++ l2) ->
  Forall (fun y => time_le y x) l1 -> Forall (time_lt x) l2 ->
  StronglySorted time_le (l1 ++ x :: l2).
Proof.
  intros Hs H1 H2. apply StronglySorted_app in Hs as (H12 & Hs1 & Hs2).
  assert (Forall (time_le x) l2) as H2'.
  { eapply Forall_impl; [exact H2|].
    intros z (a & b & Ha & Hb & Hab). exists a, b. repeat split; auto. lia. }
  apply StronglySorted_app. repeat split; auto.
  - intros y z Hy Hz. apply elem_of_cons in Hz as [->|Hz]; [|by apply H12].
    by apply (proj1 (Forall_forall _ _) H1).
  - by constructor.
Qed.

(** The insertion loop from a sorted accumulator. *)
Lemma sort_loop l : forall acc,
  all_timed l -> all_timed acc -> StronglySorted time_le acc ->
  exists out,
    for_each (fun acc x => insort x acc) l acc = Ok out /\
    StronglySorted time_le out /\ out ≡ₚ acc ++ l /\
    forall t, stamped t out = stamped t acc ++ stamped t l.
Proof.
  induction l as [|x l IH]; intros acc Hl Hacc Hs.
  - exists acc. rewrite app_nil_r. repeat split; auto.
    intros t. by rewrite app_nil_r.
  - apply Forall_cons in Hl as [[tx Hx] Hl].
    destruct (insort_spec x tx acc Hx Hacc Hs) as (l1 & l2 & Hins & -> & H1 & H2).
    cbn [for_each]. rewrite Hins. cbn [mbind result_bind].
    destruct (IH (l1 ++ x :: l2)) as (out & Hout & Hsorted & Hperm & Hst); auto.
    { apply Forall_app in Hacc as [Ha1 Ha2]. apply Forall_app.
      split; [done|]. constructor; [by exists tx|done]. }
    { by apply insort_sorted. }
    exists out. repeat split; auto.
    + rewrite Hperm, <- !app_assoc. apply Permutation_app_head.
      cbn [app]. apply Permutation_middle.
    + intros t. rewrite Hst, (stamped_insert t x tx) by done.
      rewrite <- app_assoc. f_equal. change (x :: l) with ([x] ++ l).
      by rewrite stamped_app.
Qed.

Lemma sorted_by_time_spec l :
  all_timed l ->
  exists out,
    sorted_by_time l = Ok out /\ StronglySorted time_le out /\
    out ≡ₚ l /\ forall t, stamped t out = stamped t l.
Proof.
  intros Hl. destruct (sort_loop l [] Hl) as (out & ? & ? & ? & ?);
    [constructor|constructor|]. by exists out.
Qed.

(** [insort] compares [x] with the head of a non-empty list. *)
Lemma insort_ok_timed x y l r :
  insort x (y :: l) = Ok r ->
  is_Some (time_of x) /\ is_Some (time_of y) /\ r <> [].
Proof.
  cbn [insort]. destruct (time_of x) as [tx|], (time_of y) as [ty|];
    cbn [Datetime.lt_opt mbind result_bind]; try discriminate.
  intros Hr. repeat split; [by eexists|by eexists|].
  destruct (tx <? ty); [by injection Hr as <-|].
  destruct (insort x l); [by injection Hr as <-|discriminate].
Qed.

Lemma insort_raises x l e : insort x l = Raise e -> e = TypeError.
Proof.
  induction l as [|y l IH]; [discriminate|]. cbn [insort].
  destruct (time_of x) as [tx|], (time_of y) as [ty|];
    cbn [Datetime.lt_opt mbind result_bind]; try by intros [= <-].
  destruct (tx <? ty); [discriminate|].
  destruct (insort x l) as [r|e'] eqn:E; [discriminate|].
  intros [= <-]. by apply IH.
Qed.

Lemma sort_loop_raises l : forall acc e,
  for_each (fun acc x => insort x acc) l acc = Raise e -> e = TypeError.
Proof.
  induction l as [|x l IH]; intros acc e; [discriminate|]. cbn [for_each].
  destruct (insort x acc) as [r|e'] eqn:E; cbn [mbind result_bind].
  - apply IH.
  - intros [= <-]. by eapply insort_raises.
Qed.

(** Every element inserted into a non-empty accumulator is compared. *)
Lemma sort_loop_ok_timed l : forall y acc out,
  for_each (fun acc x => insort x acc) l (y :: acc) = Ok out ->
  all_timed l /\ (l <> [] -> is_Some (time_of y)).
Proof.
  induction l as [|x l IH]; intros y acc out Hout;
    [split; [constructor|done]|].
  cbn [for_each] in Hout.
  destruct (insort x (y :: acc)) as [r|e] eqn:E; [|discriminate].
  cbn [mbind result_bind] in Hout.
  apply insort_ok_timed in E as (Hx & Hy & Hr).
  destruct r as [|z r]; [done|].
  apply IH in Hout as [Hl _]. split; [by constructor|done].
Qed.

(** When the sort returns, either nothing was compared or every key was. *)
Lemma sorted_by_time_ok l out :
  sorted_by_time l = Ok out -> (length l < 2)%nat \/ all_timed l.
Proof.
  destruct l as [|x [|x' l]]; [left; cbn; lia|left; cbn; lia|].
  intros Hout. right.
  change (sorted_by_time (x :: x' :: l))
    with (for_each (fun acc x => insort x acc) (x' :: l) [x]) in Hout.
  apply sort_loop_ok_timed in Hout as [Hl Hx]. constructor; [|done].
  by apply Hx.
Qed.

Lemma sorted_by_time_untimed l :
  (2 <= length l)%nat -> ~ all_timed l -> sorted_by_time l = Raise TypeError.
Proof.
  intros Hlen Hl. destruct (sorted_by_time l) as [out|e] eqn:E.
  - apply sorted_by_time_ok in E as [?|?]; [lia|done].
  - f_equal. by eapply sort_loop_raises.
Qed.

End SortingFacts.

(** The same holds without telling equal points apart, as long as the input
    is in chronological order: a retained point equal to the last input point
    is stamped like the point retained last. *)
Section SamplerOrdered.
Context {P : Type} `{HasTime P}.

Lemma StronglySorted_sublist (R : relation P) (k : list P) : forall l,
  StronglySorted R k -> l `sublist_of` k -> StronglySorted R l.
Proof.
  induction k as [|y k IH]; intros l Hk Hsub.
  - apply sublist_nil_r in Hsub as ->. constructor.
  - apply StronglySorted_inv in Hk as [Hk Hy].
    apply sublist_cons_r in Hsub as [Hsub|(l' & -> & Hsub)]; [by apply IH|].
    constructor; [by apply IH|].
    apply Forall_forall. intros z Hz.
    apply (proj1 (Forall_forall _ _) Hy). by eapply elem_of_sublist.
Qed.

Lemma ordered_last_point_not_due iv (points : list P) st p_last :
  0 < iv -> StronglySorted time_le points ->
  main_scan points iv = Ok st -> last points = Some p_last ->
  p_last ∈ processing_points st ->
  last_point_due points (processing_points st) iv <> Ok true.
Proof.
  intros Hiv Hsorted Hscan Hlast Hin.
  destruct points as [|p0 rest]; [discriminate|].
  rewrite main_scan_cons in Hscan.
  apply scan_from_extends in Hscan as (more & Hmore & Hsub).
  cbn [processing_points] in Hmore.
  assert (processing_points st `sublist_of` p0 :: rest) as Hsub'
    by (rewrite Hmore; by apply sublist_skip).
  pose proof (StronglySorted_sublist _ _ _ Hsorted Hsub') as Hproc.
  destruct (last (processing_points st)) as [r|] eqn:Hr;
    [|apply last_None in Hr; by rewrite Hmore in Hr].
  apply last_Some in Hr as [fr Hfr]. rewrite Hfr in *.
  pose proof Hlast as Hk. apply last_Some in Hk as [k Hk].
  unfold last_point_due.
  rewrite length_app, Nat.add_comm. cbn [length Nat.add Nat.ltb Nat.leb].
  rewrite py_last_snoc. unfold py_last. rewrite Hlast.
  cbn [mbind result_bind].
  destruct (time_of p_last) as [tl|] eqn:Htl; [|discriminate].
  destruct (time_of r) as [tr|] eqn:Htr; [|discriminate].
  cbn [Datetime.sub_opt mbind result_bind].
  assert (tr <= tl) as Hle.
  { assert (r ∈ k ++ [p_last]) as Hrin.
    { rewrite <- Hk. eapply elem_of_sublist; [|exact Hsub'].
      apply elem_of_app. right. by left. }
    apply elem_of_app in Hrin as [Hrin|Hrin].
    - rewrite Hk in Hsorted. apply StronglySorted_app in Hsorted as (Hkl & _ & _).
      destruct (Hkl r p_last Hrin) as (a & b & Ha & Hb & Hab); [by left|].
      congruence.
    - apply list_elem_of_singleton in Hrin as ->.
      assert (tr = tl) by congruence. lia. }
  assert (tl <= tr) as Hge.
  { apply elem_of_app in Hin as [Hin|Hin].
    - apply StronglySorted_app in Hproc as (Hfrr & _ & _).
      destruct (Hfrr p_last r Hin) as (a & b & Ha & Hb & Hab); [by left|].
      congruence.
    - apply list_elem_of_singleton in Hin as ->.
      assert (tr = tl) by congruence. lia. }
  replace tr with tl by lia.
  rewrite DatetimeFacts.seconds_sub_diag.
  destruct (iv * 60 <=? 0) eqn:E; [apply Z.leb_le in E; lia|discriminate].
Qed.

End SamplerOrdered.

Lemma fold_left_extend {A B} (g : A -> list B) (l : list A) : forall acc,
  fold_left (fun acc x => acc ++ g x) l acc = acc ++ concat (g <$> l).
Proof.
  induction l as [|x l IH]; intros acc; cbn; [by rewrite app_nil_r|].
  by rewrite IH, app_assoc.
Qed.

(** The nested loops build the concatenation in traversal order. *)
Lemma all_points_concat gpx_data :
  all_points gpx_data = concatenated_points gpx_data.
Proof.
  unfold all_points, concatenated_points, all_segments.
  generalize (tracks gpx_data) as trs. intros trs.
  assert (forall acc,
             fold_left
               (fun total_points track =>
                  fold_left (fun total_points segment =>
                               total_points ++ points segment)
                            (segments track) total_points) trs acc
             = acc ++ concat (points <$> concat (segments <$> trs))) as G.
  { induction trs as [|tr trs IH]; intros acc; cbn; [by rewrite app_nil_r|].
    rewrite IH, fold_left_extend, fmap_app, concat_app. by rewrite app_assoc. }
  apply (G []).
Qed.

(** The sampler looks at timestamps only: relabelling the points by a map
    that keeps them commutes with every stage of it. *)
Section SamplerRelabel.
Context {P Q : Type} `{HasTime P} `{HasTime Q} (f : P -> Q).
Hypothesis time_of_f : forall p, time_of (f p) = time_of p.

Lemma scan_from_fmap iv rest : forall prev st,
  scan_from iv (f prev) (f <$> rest) (map_state f st)
  = map_state f <$> scan_from iv prev rest st.
Proof.
  induction rest as [|p rest IH]; intros prev st; [reflexivity|].
  rewrite fmap_cons, !scan_from_cons, !time_of_f.
  destruct (Datetime.sub_opt (time_of p) (time_of prev)) as [d|e];
    [|reflexivity].
  cbn [mbind result_bind]. rewrite <- IH. f_equal.
  unfold step_state, map_state. cbn [time_sec_passed processing_points].
  destruct (iv * 60 <=? time_sec_passed st + Datetime.seconds d);
    cbn [time_sec_passed processing_points]; [|reflexivity].
  by rewrite fmap_app.
Qed.

Lemma last_point_due_fmap iv (points retained : list P) :
  last_point_due (P:=Q) (f <$> points) (f <$> retained) iv
  = last_point_due points retained iv.
Proof.
  unfold last_point_due, py_last. rewrite length_fmap, !fmap_last.
  destruct (0 <? length retained)%nat; [|reflexivity].
  destruct (last points) as [pl|]; [|reflexivity].
  destruct (last retained) as [rl|]; [|reflexivity].
  cbn [fmap option_fmap option_map mbind result_bind].
  by rewrite !time_of_f.
Qed.

Lemma select_points_nonempty_fmap iv (points : list P) :
  select_points_nonempty (P:=Q) (f <$> points) iv
  = fmap (M:=list) f <$> select_points_nonempty points iv.
Proof.
  destruct points as [|p0 rest]; [reflexivity|].
  rewrite fmap_cons, !select_points_nonempty_cons.
  pose proof (scan_from_fmap iv rest p0
                {| processing_points := [p0]; time_sec_passed := 0 |}) as Hs.
  unfold map_state at 1 in Hs. cbn [processing_points time_sec_passed] in Hs.
  change (f <$> [p0]) with [f p0] in Hs. rewrite Hs.
  destruct (scan_from iv p0 rest _) as [st|e]; [|reflexivity].
  cbn [fmap result_fmap mbind result_bind].
  unfold map_state at 1 2 3. cbn [processing_points].
  rewrite <- fmap_cons, last_point_due_fmap.
  destruct (last_point_due (p0 :: rest) (processing_points st) iv)
    as [[|]|e]; try reflexivity.
  cbn [mbind result_bind]. unfold py_last. rewrite fmap_last.
  destruct (last (p0 :: rest)) as [pl|]; [|reflexivity].
  cbn [fmap option_fmap option_map mbind result_bind result_fmap].
  by rewrite fmap_app.
Qed.

End SamplerRelabel.

Lemma enumerate_from_fst {A} (l : list A) : forall n,
  (enumerate_from n l).*1 = seq n (length l).
Proof. induction l as [|x l IH]; intros n; cbn; [done|]. by rewrite IH. Qed.

Lemma enumerate_from_snd {A} (l : list A) : forall n,
  (enumerate_from n l).*2 = l.
Proof. induction l as [|x l IH]; intros n; cbn; [done|]. by rewrite IH. Qed.

Lemma enumerate_NoDup {A} (l : list A) : NoDup (enumerate l).
Proof.
  apply (NoDup_fmap_1 fst). unfold enumerate.
  rewrite enumerate_from_fst. apply NoDup_seq.
Qed.

(** The run on the tagged points is the run on the points. *)
Lemma select_points_nonempty_enumerate (points : list TrackPoint) iv :
  select_points_nonempty points iv
  = fmap (M:=list) snd <$> select_points_nonempty (enumerate points) iv.
Proof.
  rewrite <- (select_points_nonempty_fmap snd) by done.
  unfold enumerate. by rewrite enumerate_from_snd.
Qed.

Lemma not_double_append points iv : 0 < iv -> ~ double_append points iv.
Proof.
  intros Hiv (st & p_last & Hscan & Hlast & Hin & Hdue).
  by eapply (retained_last_point_not_due iv (enumerate points));
    eauto using enumerate_NoDup.
Qed.

(** * The specification of the extractor and the sampler *)

Lemma select_points_cons {P} `{HasTime P} (p0 : P) rest iv :
  select_points (p0 :: rest) iv
  = log_and_reraise FailedToSelectPoints
      (lift (select_points_nonempty (p0 :: rest) iv)).
Proof. reflexivity. Qed.

Lemma extract_points_eq gpx_data :
  extract_points gpx_data
  = log_and_reraise FailedToExtractPoints
      (lift (sorted_by_time (concatenated_points gpx_data))).
Proof. unfold extract_points. by rewrite all_points_concat. Qed.

Lemma Sorted_lookup_succ {A} (R : relation A) (l : list A) : forall i a b,
  Sorted R l -> l !! i = Some a -> l !! S i = Some b -> R a b.
Proof.
  induction l as [|x l IH]; intros i a b Hs Ha Hb; [done|].
  apply Sorted_inv in Hs as [Hs Hhd]. destruct i as [|i].
  - cbn in Ha, Hb. injection Ha as <-. destruct l as [|y l]; [done|].
    cbn in Hb. injection Hb as <-. by apply HdRel_inv in Hhd.
  - by apply (IH i).
Qed.

Lemma sub_shift t d : Datetime.sub (t + d) t = Datetime.of_microseconds d.
Proof. unfold Datetime.sub. f_equal. lia. Qed.

(** C3: three points stamped 0 s, 100 s and 400 s after a common origin,
    sampled at 5 minutes, give exactly the first and the third point: the
    scan retains the third point (accumulated gap 400 s) and the post-scan
    test is false, so nothing is appended twice. *)
Theorem select_points_three_points t0 lat0 lon0 lat1 lon1 lat2 lon2 :
  let p0 := {| latitude := lat0; longitude := lon0; time := Some t0 |} in
  let p1 := {| latitude := lat1; longitude := lon1;
               time := Some (t0 + sec 100) |} in
  let p2 := {| latitude := lat2; longitude := lon2;
               time := Some (t0 + sec 400) |} in
  select_points [p0; p1; p2] 5 = ([], Ok [p0; p2]) /\
  main_scan [p0; p1; p2] 5
  = Ok {| processing_points := [p0; p2]; time_sec_passed := 0 |} /\
  last_point_due [p0; p1; p2] [p0; p2] 5 = Ok false.
Proof.
  intros p0 p1 p2.
  assert (main_scan [p0; p1; p2] 5
          = Ok {| processing_points := [p0; p2]; time_sec_passed := 0 |}) as Hscan.
  { rewrite main_scan_cons, scan_from_cons.
    cbn [time_of TrackPoint_time time p0 p1 p2 Datetime.sub_opt mbind result_bind].
    rewrite sub_shift.
    change (step_state 5 _ p1 (Datetime.of_microseconds (sec 100)))
      with {| processing_points := [p0]; time_sec_passed := 100 |}.
    rewrite scan_from_cons.
    cbn [time_of TrackPoint_time time p0 p1 p2 Datetime.sub_opt mbind result_bind].
    replace (Datetime.sub (t0 + sec 400) (t0 + sec 100))
      with (Datetime.of_microseconds (sec 300))
      by (unfold Datetime.sub, sec; f_equal; lia).
    reflexivity. }
  assert (last_point_due [p0; p1; p2] [p0; p2] 5 = Ok false) as Hdue.
  { rewrite (last_point_due_eq 5 _ [p0] p2 p2 (t0 + sec 400) (t0 + sec 400))
      by done.
    by rewrite DatetimeFacts.seconds_sub_diag. }
  repeat split; [|done|done].
  rewrite select_points_cons. unfold select_points_nonempty.
  rewrite Hscan. cbn [mbind result_bind processing_points].
  rewrite Hdue. reflexivity.
Qed.

(** C4: on an input sorted non-decreasing by timestamp the sampler returns,
    and any two neighbours of its output are stamped at least
    [interval_minutes * 60] seconds apart; this holds for every interval and
    includes the point appended after the scan. *)
Theorem retained_points_spaced (points : list TrackPoint) (iv : Z) :
  all_timed points -> Sorted time_le points ->
  exists trace out,
    select_points points iv = (trace, Ok out) /\
    forall i a b, out !! i = Some a -> out !! S i = Some b -> spaced iv a b.
Proof.
  intros Ht Hs. destruct points as [|p0 rest].
  - exists [Logged WARNING NoPointsToSelectFrom], []. by split.
  - apply Forall_cons in Ht as [Hp0 _].
    destruct (select_points_nonempty_spaced iv p0 rest Hs Hp0) as (out & Hout & Hsp).
    exists [], out. rewrite select_points_cons, Hout. split; [done|].
    intros i a b. by apply Sorted_lookup_succ.
Qed.

Lemma retained_points_spaced_witness :
  exists trace out,
    select_points [pt 0; pt 200; pt 400; pt 500; pt 1000] 5 = (trace, Ok out) /\
    forall i a b, out !! i = Some a -> out !! S i = Some b -> spaced 5 a b.
Proof.
  apply (retained_points_spaced [pt 0; pt 200; pt 400; pt 500; pt 1000] 5).
  - repeat constructor; by eexists.
  - repeat constructor; eexists _, _; (split; [reflexivity|split; [reflexivity|]]);
      vm_compute; discriminate.
Defined.

(** C5: on the empty sequence the sampler warns and returns the empty
    sequence; on a non-empty sequence of timestamped points it returns a
    non-empty sequence headed by the first input point, whatever the
    interval. *)
Theorem select_points_keeps_first (iv : Z) :
  select_points (@nil TrackPoint) iv
  = ([Logged WARNING NoPointsToSelectFrom], Ok []) /\
  forall (p0 : TrackPoint) rest,
    all_timed (p0 :: rest) ->
    exists out', select_points (p0 :: rest) iv = ([], Ok (p0 :: out')).
Proof.
  split; [reflexivity|]. intros p0 rest Ht.
  destruct (select_points_nonempty_head iv p0 rest Ht) as [out' Hout].
  exists out'. by rewrite select_points_cons, Hout.
Qed.

Lemma select_points_keeps_first_witness :
  exists out', select_points [pt 0; pt 100; pt 400] (-3) = ([], Ok (pt 0 :: out')).
Proof.
  apply (proj2 (select_points_keeps_first (-3)) (pt 0) [pt 100; pt 400]).
  repeat constructor; by eexists.
Defined.

(** C6: on a track whose points are all timestamped the extractor returns
    the stable sort by timestamp of the concatenation of all segments'
    points: sorted non-decreasing, as long as the sum of the per-segment
    point counts, a permutation of the concatenation in which equally
    stamped points keep their order; an empty track gives the empty
    sequence. *)
Theorem extract_points_stable_sort (gpx_data : GPX) :
  all_timed (concatenated_points gpx_data) ->
  exists out,
    extract_points gpx_data = ([], Ok out) /\
    StronglySorted time_le out /\
    length out = sum_list (segment_point_counts gpx_data) /\
    out ≡ₚ concatenated_points gpx_data /\
    (forall t, stamped t out = stamped t (concatenated_points gpx_data)) /\
    (concatenated_points gpx_data = [] -> out = []).
Proof.
  intros Ht.
  destruct (sorted_by_time_spec _ Ht) as (out & Hout & Hs & Hperm & Hst).
  exists out. rewrite extract_points_eq, Hout. repeat split; auto.
  - rewrite Hperm. unfold concatenated_points, segment_point_counts.
    rewrite length_concat. f_equal. rewrite <- list_fmap_compose. done.
  - intros E. rewrite E in Hperm. by apply Permutation_nil_r in Hperm.
Qed.

Lemma extract_points_stable_sort_witness :
  exists out,
    extract_points
      {| tracks := [ {| segments := [ {| points := [pt 30; pt 10] |};
                                      {| points := [] |} ] |};
                     {| segments := [ {| points := [pt 10; pt 20] |} ] |} ] |}
    = ([], Ok out) /\ out = [pt 10; pt 10; pt 20; pt 30].
Proof.
  destruct (extract_points_stable_sort
              {| tracks := [ {| segments := [ {| points := [pt 30; pt 10] |};
                                              {| points := [] |} ] |};
                             {| segments := [ {| points := [pt 10; pt 20] |} ] |} ] |})
    as (out & Hout & _).
  - repeat constructor; by eexists.
  - exists out. split; [exact Hout|].
    vm_compute in Hout. by injection Hout as <-.
Defined.

(** C2, as the code has it: with a positive interval the post-scan step
    never appends the last input point when the main scan has retained it
    (the test compares the point with itself: zero seconds), and the sampled
    sequence holds no input point twice. *)
Theorem no_double_append_for_positive_interval
    (points : list TrackPoint) (iv : Z) :
  0 < iv ->
  ~ double_append points iv /\
  forall out, select_points_nonempty (enumerate points) iv = Ok out -> NoDup out.
Proof.
  intros Hiv. split; [by apply not_double_append|].
  intros out. apply select_points_nonempty_NoDup; [done|apply enumerate_NoDup].
Qed.

Lemma no_double_append_for_positive_interval_witness :
  0 < 5 /\
  (~ double_append [pt 0; pt 100; pt 400] 5 /\
   forall out,
     select_points_nonempty (enumerate [pt 0; pt 100; pt 400]) 5 = Ok out ->
     NoDup out).
Proof.
  split; [lia|].
  apply (no_double_append_for_positive_interval [pt 0; pt 100; pt 400] 5). lia.
Defined.

(** C2, as stated, fails: no input and no positive interval reach the double
    append; it takes an interval that is not positive, such as two points
    sampled at interval 0. *)
Lemma double_append_needs_nonpositive_interval :
  ~ (exists points iv, 0 < iv /\ double_append points iv) /\
  double_append [pt 0; pt 100] 0 /\
  select_points [pt 0; pt 100] 0 = ([], Ok [pt 0; pt 100; pt 100]).
Proof.
  split; [|split].
  - intros (points & iv & Hiv & Hdouble). by apply (not_double_append points iv).
  - exists {| processing_points := [(0%nat, pt 0); (1%nat, pt 100)];
              time_sec_passed := 0 |}, (1%nat, pt 100).
    repeat split; try reflexivity.
    apply list_elem_of_In. cbn. tauto.
  - reflexivity.
Qed.

(** ** Whole days and the gap *)

Lemma elapsed_seconds_mod_day_split t days s us :
  0 <= s < 86400 -> 0 <= us < 1000000 ->
  elapsed_seconds_mod_day (t + ((days * 86400 + s) * 1000000 + us)) t = s.
Proof.
  intros Hs Hus. unfold elapsed_seconds_mod_day.
  replace (t + ((days * 86400 + s) * 1000000 + us) - t)
    with (us + (days * 86400 + s) * 1000000) by lia.
  rewrite Z.div_add by lia. rewrite (Z.div_small us) by lia.
  rewrite Z.add_0_l, (Z.add_comm (days * 86400) s), Z.mod_add by lia.
  by apply Z.mod_small.
Qed.

(** Moving either operand by whole days leaves the [seconds] field as it
    is. *)
Lemma seconds_day_shift a b da db :
  Datetime.seconds (Datetime.sub (a + da * (86400 * 1000000))
                                 (b + db * (86400 * 1000000)))
  = Datetime.seconds (Datetime.sub a b).
Proof.
  rewrite !DatetimeFacts.seconds_sub.
  replace (a + da * (86400 * 1000000) - (b + db * (86400 * 1000000)))
    with ((a - b) + ((da - db) * 86400) * 1000000) by lia.
  rewrite Z.div_add by lia. by rewrite Z.mod_add by lia.
Qed.

Section SamplerSteps.
Context {P : Type} `{HasTime P}.
Implicit Types (points rest pre : list P) (st : sampler_state P).

(** The scan of a list that ends in [p] is the scan of the list before [p]
    followed by the step to [p]. *)
Lemma scan_from_snoc iv rest : forall prev st p,
  scan_from iv prev (rest ++ [p]) st
  = st' ← scan_from iv prev rest st;
    d ← Datetime.sub_opt (time_of p) (time_of (default prev (last rest)));
    Ok (step_state iv st' p d).
Proof.
  induction rest as [|q rest IH]; intros prev st p.
  - cbn [app last default scan_from mbind result_bind].
    by destruct (Datetime.sub_opt (time_of p) (time_of prev)).
  - cbn [app]. rewrite !scan_from_cons.
    destruct (Datetime.sub_opt (time_of q) (time_of prev)) as [d|e];
      [|reflexivity].
    cbn [mbind result_bind]. rewrite IH, (last_cons q rest).
    by destruct (last rest).
Qed.

Lemma main_scan_snoc iv pre p_prev p :
  main_scan (pre ++ [p_prev; p]) iv
  = st ← main_scan (pre ++ [p_prev]) iv;
    d ← Datetime.sub_opt (time_of p) (time_of p_prev);
    Ok (step_state iv st p d).
Proof.
  destruct pre as [|p0 pre].
  - cbn [app]. rewrite !main_scan_cons.
    cbn [scan_from mbind result_bind].
    by destruct (Datetime.sub_opt (time_of p) (time_of p_prev)).
  - cbn [app]. rewrite !main_scan_cons.
    change (pre ++ [p_prev; p]) with (pre ++ [p_prev] ++ [p]).
    by rewrite app_assoc, scan_from_snoc, last_snoc.
Qed.

(** With a positive interval the accumulated gap stays below the
    threshold. *)
Lemma scan_from_below_threshold iv rest : forall prev st st',
  0 < iv -> time_sec_passed st < iv * 60 ->
  scan_from iv prev rest st = Ok st' -> time_sec_passed st' < iv * 60.
Proof.
  induction rest as [|p rest IH]; intros prev st st' Hiv Hlt Hscan.
  - by injection Hscan as <-.
  - rewrite scan_from_cons in Hscan.
    destruct (Datetime.sub_opt (time_of p) (time_of prev)) as [d|e];
      [|discriminate].
    cbn [mbind result_bind] in Hscan.
    apply (IH _ _ _ Hiv) in Hscan; [done|].
    unfold step_state.
    destruct (iv * 60 <=? time_sec_passed st + Datetime.seconds d) eqn:E;
      cbn [time_sec_passed]; [lia|by apply Z.leb_gt in E].
Qed.

Lemma main_scan_below_threshold iv points st :
  0 < iv -> main_scan points iv = Ok st -> time_sec_passed st < iv * 60.
Proof.
  intros Hiv. destruct points as [|p0 rest]; [done|].
  rewrite main_scan_cons.
  apply scan_from_below_threshold; [done|]. cbn [time_sec_passed]. lia.
Qed.

End SamplerSteps.

Lemma sub_opt_day_shifted (a a' b b' : nat * TrackPoint) :
  same_position_day_shifted a a' -> same_position_day_shifted b b' ->
  exists d d',
    Datetime.sub_opt (time_of a) (time_of b) = Ok d /\
    Datetime.sub_opt (time_of a') (time_of b') = Ok d' /\
    Datetime.seconds d = Datetime.seconds d'.
Proof.
  intros [_ (ta & da & Ha & Ha')] [_ (tb & db & Hb & Hb')].
  unfold time_of, tagged_time, time_of, TrackPoint_time.
  rewrite Ha, Ha', Hb, Hb'. do 2 eexists.
  split; [reflexivity|]. split; [reflexivity|].
  by rewrite seconds_day_shift.
Qed.

Lemma scan_from_day_shifted iv rest rest' :
  Forall2 same_position_day_shifted rest rest' ->
  forall prev prev' st st',
    same_position_day_shifted prev prev' ->
    Forall2 same_position_day_shifted
            (processing_points st) (processing_points st') ->
    time_sec_passed st = time_sec_passed st' ->
    exists s s',
      scan_from iv prev rest st = Ok s /\
      scan_from iv prev' rest' st' = Ok s' /\
      Forall2 same_position_day_shifted
              (processing_points s) (processing_points s') /\
      time_sec_passed s = time_sec_passed s'.
Proof.
  induction 1 as [|p p' rest rest' Hp _ IH];
    intros prev prev' st st' Hprev Hproc Hpassed.
  - by exists st, st'.
  - rewrite !scan_from_cons.
    destruct (sub_opt_day_shifted p p' prev prev' Hp Hprev)
      as (d & d' & -> & -> & Hd).
    cbn [mbind result_bind]. apply IH; [done| |].
    + unfold step_state. rewrite Hpassed, Hd.
      destruct (iv * 60 <=? time_sec_passed st' + Datetime.seconds d');
        cbn [processing_points]; [|done].
      apply Forall2_app; [done|by constructor].
    + unfold step_state. rewrite Hpassed, Hd.
      by destruct (iv * 60 <=? time_sec_passed st' + Datetime.seconds d').
Qed.

Lemma last_point_due_day_shifted iv points points' retained retained' :
  Forall2 same_position_day_shifted points points' ->
  Forall2 same_position_day_shifted retained retained' ->
  last_point_due points retained iv = last_point_due points' retained' iv.
Proof.
  intros Hpoints Hretained. unfold last_point_due, py_last.
  rewrite (Forall2_length _ _ _ Hretained).
  destruct (0 <? length retained')%nat; [|reflexivity].
  destruct (Forall2_last _ _ _ Hpoints) as [pl pl' Hpl|]; [|reflexivity].
  destruct (Forall2_last _ _ _ Hretained) as [rl rl' Hrl|]; [|reflexivity].
  cbn [mbind result_bind].
  destruct (sub_opt_day_shifted pl pl' rl rl' Hpl Hrl)
    as (d & d' & -> & -> & Hd).
  cbn [mbind result_bind]. by rewrite Hd.
Qed.

Lemma day_shifted_positions (l l' : list (nat * TrackPoint)) :
  Forall2 same_position_day_shifted l l' -> l.*1 = l'.*1.
Proof.
  induction 1 as [|a a' l l' [Ha _] _ IH]; [done|].
  rewrite !fmap_cons. by f_equal.
Qed.

Lemma select_points_nonempty_day_shifted iv points points' :
  Forall2 same_position_day_shifted points points' ->
  fmap (M:=list) fst <$> select_points_nonempty points iv
  = fmap (M:=list) fst <$> select_points_nonempty points' iv.
Proof.
  intros Hpoints. pose proof Hpoints as Hall.
  destruct Hpoints as [|p0 p0' rest rest' Hp0 Hrest]; [reflexivity|].
  rewrite !select_points_nonempty_cons.
  assert (Forall2 same_position_day_shifted [p0] [p0']) as Hfirst
    by (by constructor).
  destruct (scan_from_day_shifted iv rest rest' Hrest p0 p0'
              {| processing_points := [p0]; time_sec_passed := 0 |}
              {| processing_points := [p0']; time_sec_passed := 0 |}
              Hp0 Hfirst eq_refl)
    as (s & s' & -> & -> & Hproc & _).
  cbn [mbind result_bind].
  rewrite (last_point_due_day_shifted iv _ _ _ _ Hall Hproc).
  destruct (last_point_due (p0' :: rest') (processing_points s') iv)
    as [[|]|e]; cbn [mbind result_bind fmap result_fmap]; [| |reflexivity].
  - unfold py_last.
    destruct (Forall2_last _ _ _ Hall) as [pl pl' Hpl|]; [|reflexivity].
    cbn [mbind result_bind fmap result_fmap]. f_equal.
    apply day_shifted_positions, Forall2_app; [done|by constructor].
  - f_equal. by apply day_shifted_positions.
Qed.

Lemma enumerate_from_day_shifted (l l' : list TrackPoint) :
  Forall2 day_shifted l l' ->
  forall n, Forall2 same_position_day_shifted
                    (enumerate_from n l) (enumerate_from n l').
Proof.
  induction 1 as [|p p' l l' Hp _ IH]; intros n; [constructor|].
  cbn [enumerate_from]. constructor; [by split|apply IH].
Qed.

(** C10: the gap the scan adds for the step from a point to its successor,
    and the gap the post-scan test looks at, is the [seconds] field of the
    difference, that is the whole seconds elapsed modulo 86400. Scanning one
    more point [p_i] after [p_prev] takes the state of the scan up to
    [p_prev] and adds that gap; the result of [select_points] is what the
    scan retained, with the last point appended when that gap from the point
    retained last reaches the interval. Whole days are dropped: moving the
    timestamps of the points by whole days, each point by its own number,
    changes nothing in the positions that are retained, and under a positive
    interval a point a whole number of days after its predecessor leaves the
    state of the scan as it was. *)
Theorem gap_drops_whole_days (iv : Z) :
  (forall (pre : list TrackPoint) p_prev p_i st t_prev t_i,
      main_scan (pre ++ [p_prev]) iv = Ok st ->
      time p_prev = Some t_prev -> time p_i = Some t_i ->
      let gap := elapsed_seconds_mod_day t_i t_prev in
      main_scan (pre ++ [p_prev; p_i]) iv
      = Ok (if iv * 60 <=? time_sec_passed st + gap
            then {| processing_points := processing_points st ++ [p_i];
                    time_sec_passed := 0 |}
            else {| processing_points := processing_points st;
                    time_sec_passed := time_sec_passed st + gap |})) /\
  (forall (points : list TrackPoint) st front r_last p_last t_last t_r,
      main_scan points iv = Ok st ->
      processing_points st = front ++ [r_last] ->
      last points = Some p_last ->
      time p_last = Some t_last -> time r_last = Some t_r ->
      select_points points iv
      = ([], Ok (if iv * 60 <=? elapsed_seconds_mod_day t_last t_r
                 then processing_points st ++ [p_last]
                 else processing_points st))) /\
  (forall points points' : list TrackPoint,
      Forall2 day_shifted points points' ->
      retained_positions points iv = retained_positions points' iv) /\
  (forall (pre : list TrackPoint) p_prev p_i st t days,
      0 < iv -> main_scan (pre ++ [p_prev]) iv = Ok st ->
      time p_prev = Some t ->
      time p_i = Some (t + days * (86400 * 1000000)) ->
      main_scan (pre ++ [p_prev; p_i]) iv = Ok st) /\
  (forall t days s us,
      0 <= s < 86400 -> 0 <= us < 1000000 ->
      elapsed_seconds_mod_day (t + ((days * 86400 + s) * 1000000 + us)) t = s).
Proof.
  split; [|split; [|split; [|split]]].
  - intros pre p_prev p_i st t_prev t_i Hscan Hprev Hi gap.
    rewrite main_scan_snoc, Hscan. cbn [mbind result_bind].
    unfold time_of, TrackPoint_time. rewrite Hi, Hprev.
    cbn [Datetime.sub_opt mbind result_bind]. unfold step_state.
    rewrite DatetimeFacts.seconds_sub.
    fold (elapsed_seconds_mod_day t_i t_prev). fold gap.
    by destruct (iv * 60 <=? time_sec_passed st + gap).
  - intros points st front r_last p_last t_last t_r Hscan Hproc Hlast Htl Htr.
    destruct points as [|p0 rest]; [done|].
    rewrite select_points_cons. unfold select_points_nonempty.
    rewrite Hscan. cbn [mbind result_bind]. rewrite Hproc.
    rewrite (last_point_due_eq iv _ front r_last p_last t_last t_r) by done.
    cbn [mbind result_bind]. rewrite DatetimeFacts.seconds_sub.
    fold (elapsed_seconds_mod_day t_last t_r).
    unfold py_last. rewrite Hlast.
    by destruct (iv * 60 <=? elapsed_seconds_mod_day t_last t_r).
  - intros points points' Hshift. unfold retained_positions.
    apply select_points_nonempty_day_shifted.
    by apply enumerate_from_day_shifted.
  - intros pre p_prev p_i st t days Hiv Hscan Hprev Hi.
    pose proof (main_scan_below_threshold iv _ st Hiv Hscan) as Hlt.
    rewrite main_scan_snoc, Hscan. cbn [mbind result_bind].
    unfold time_of, TrackPoint_time. rewrite Hi, Hprev.
    cbn [Datetime.sub_opt mbind result_bind]. unfold step_state.
    pose proof (seconds_day_shift t t days 0) as Hs.
    rewrite Z.mul_0_l, Z.add_0_r, DatetimeFacts.seconds_sub_diag in Hs.
    rewrite Hs, Z.add_0_r.
    destruct (iv * 60 <=? time_sec_passed st) eqn:E;
      [apply Z.leb_le in E; lia|].
    by destruct st.
  - apply elapsed_seconds_mod_day_split.
Qed.

Lemma gap_drops_whole_days_witness :
  main_scan [pt 0; pt 86500] 5
  = Ok {| processing_points := [pt 0]; time_sec_passed := 100 |} /\
  select_points [pt 0; pt 86500] 5 = ([], Ok [pt 0]) /\
  retained_positions [pt 0; pt 86500; pt 173100] 5
  = retained_positions [pt 0; pt 100; pt 300] 5 /\
  main_scan [pt 0; pt 200; pt 86600] 5
  = Ok {| processing_points := [pt 0]; time_sec_passed := 200 |}.
Proof.
  split; [|split; [|split]].
  - exact (proj1 (gap_drops_whole_days 5) [] (pt 0) (pt 86500)
             {| processing_points := [pt 0]; time_sec_passed := 0 |}
             (sec 0) (sec 86500) eq_refl eq_refl eq_refl).
  - exact (proj1 (proj2 (gap_drops_whole_days 5)) [pt 0; pt 86500]
             {| processing_points := [pt 0]; time_sec_passed := 100 |}
             [] (pt 0) (pt 86500) (sec 86500) (sec 0)
             eq_refl eq_refl eq_refl eq_refl eq_refl).
  - apply (proj1 (proj2 (proj2 (gap_drops_whole_days 5)))).
    repeat constructor.
    + by exists (sec 0), 0.
    + by exists (sec 86500), (-1).
    + by exists (sec 173100), (-2).
  - apply (proj1 (proj2 (proj2 (proj2 (gap_drops_whole_days 5))))
             [pt 0] (pt 200) (pt 86600)
             {| processing_points := [pt 0]; time_sec_passed := 200 |}
             (sec 200) 1);
      [lia|reflexivity|reflexivity|reflexivity].
Defined.

(** The sampler on two points a day and a hundred seconds apart at interval
    1: the scan adds 100 seconds, which reaches the interval of 60. *)
Example select_points_day_and_100s :
  select_points [pt 0; pt 86500] 1 = ([], Ok [pt 0; pt 86500]) /\
  select_points [pt 0; pt 86400] 1 = ([], Ok [pt 0]) /\
  retained_positions [pt 0; pt 86500; pt 173100] 5 = Ok [0%nat; 2%nat].
Proof. repeat split. Qed.

(** C9, as the code has it: a track that holds at least two points, one of
    which lacks a timestamp, makes the extractor log the failure and raise
    [TypeError]. *)
Theorem extract_points_untimed_raises (gpx_data : GPX) (p : TrackPoint) :
  (2 <= length (concatenated_points gpx_data))%nat ->
  p ∈ concatenated_points gpx_data -> time p = None ->
  extract_points gpx_data
  = ([Logged ERROR (FailedToExtractPoints TypeError)], Raise TypeError).
Proof.
  intros Hlen Hin Hp. rewrite extract_points_eq, sorted_by_time_untimed; auto.
  intros Ht. unfold all_timed in Ht. rewrite Forall_forall in Ht.
  destruct (Ht p Hin) as [t Hsome].
  unfold time_of, TrackPoint_time in Hsome. congruence.
Qed.

Lemma extract_points_untimed_raises_witness :
  extract_points (single_segment [pt 5; untimed_point; pt 1])
  = ([Logged ERROR (FailedToExtractPoints TypeError)], Raise TypeError).
Proof.
  apply (extract_points_untimed_raises _ untimed_point).
  - cbn. lia.
  - cbn. apply list_elem_of_In. cbn. tauto.
  - reflexivity.
Defined.

(** C9, as stated, fails: a track whose only point lacks a timestamp is
    returned as it is, because sorting a one-element list compares nothing. *)
Lemma extract_points_single_untimed :
  time untimed_point = None /\
  extract_points (single_segment [untimed_point]) = ([], Ok [untimed_point]).
Proof. split; reflexivity. Qed.

(** ** Geocoding and deduplication *)

Lemma first_occurrences_snoc {A} `{EqDecision A} (l : list A) x :
  first_occurrences (l ++ [x])
  = first_occurrences l ++ (if decide (x ∈ l) then [] else [x]).
Proof.
  unfold first_occurrences. rewrite imap_app, omap_app. f_equal.
  - f_equal. apply imap_ext. intros i y Hi. unfold keep_if_first.
    rewrite take_app_le; [done|]. apply lookup_lt_Some in Hi. lia.
  - cbn. unfold keep_if_first. rewrite Nat.add_0_r, take_app_length.
    by destruct (decide (x ∈ l)).
Qed.

Lemma first_occurrences_elem_of {A} `{EqDecision A} (l : list A) x :
  x ∈ first_occurrences l <-> x ∈ l.
Proof.
  induction l as [|y l IH] using rev_ind; [done|].
  rewrite first_occurrences_snoc, !elem_of_app, IH.
  destruct (decide (y ∈ l)) as [Hy|Hy].
  - split.
    + intros [?|Hn]; [by left|by apply elem_of_nil in Hn].
    + intros [?| ->%list_elem_of_singleton]; by left.
  - done.
Qed.

Lemma first_occurrences_NoDup {A} `{EqDecision A} (l : list A) :
  NoDup (first_occurrences l).
Proof.
  induction l as [|y l IH] using rev_ind; [constructor|].
  rewrite first_occurrences_snoc. destruct (decide (y ∈ l)) as [Hy|Hy].
  - by rewrite app_nil_r.
  - apply NoDup_app. repeat split; [done| |apply NoDup_singleton].
    intros x Hx Hx'. apply list_elem_of_singleton in Hx' as ->.
    apply Hy. by apply (first_occurrences_elem_of l y).
Qed.

Lemma address_tuple_dict t : address_tuple (address_dict t) = Ok t.
Proof. by destruct t as [[[[c a1] a2] l] s]. Qed.

Lemma address_dict_keys t : (address_dict t).*1 = address_keys.
Proof. by destruct t as [[[[c a1] a2] l] s]. Qed.

#[global] Instance address_dict_inj : Inj (=) (=) address_dict.
Proof.
  intros t t' E. apply (f_equal address_tuple) in E.
  rewrite !address_tuple_dict in E. by injection E.
Qed.

(** The [if/elif] chain only ever overwrites one of the five fields. *)
Lemma parse_component_dict t component :
  exists t', parse_component (address_dict t) component = address_dict t'.
Proof.
  destruct t as [[[[c a1] a2] l] s]. unfold parse_component.
  repeat match goal with
         | |- context [has_type ?k component] => destruct (has_type k component)
         end;
    by eexists (_, _, _, _, _).
Qed.

Lemma parse_address_dict candidate :
  exists t, parse_address candidate = address_dict t.
Proof.
  unfold parse_address.
  change empty_address with (address_dict ("", "", "", "", "")).
  generalize ("", "", "", "", "") as t.
  induction (address_components candidate) as [|component l IH]; intros t.
  - by exists t.
  - cbn [fold_left]. destruct (parse_component_dict t component) as [t' ->].
    apply IH.
Qed.

(** What one non-empty response does to the state: the tuple ends up seen,
    and the record is appended exactly when the tuple was not seen before. *)
Lemma record_result_cons st point first others :
  exists t,
    parse_address first = address_dict t /\
    record_result st point (first :: others)
    = ([], Ok (if bool_decide (t ∉ seen_addresses st)
               then {| parsed_points := parsed_points st ++ [address_dict t];
                       seen_addresses := seen_addresses st ∪ {[t]} |}
               else st)).
Proof.
  destruct (parse_address_dict first) as [t Ht]. exists t. split; [done|].
  unfold record_result. rewrite Ht, address_tuple_dict.
  cbn [lift mbind M_bind]. by destruct (bool_decide (t ∉ seen_addresses st)).
Qed.

Lemma candidates_snoc_empty done : candidates (done ++ [[]]) = candidates done.
Proof. unfold candidates. by rewrite omap_app, app_nil_r. Qed.

Lemma candidates_snoc_cons done first others :
  candidates (done ++ [first :: others]) = candidates done ++ [parse_address first].
Proof. unfold candidates. by rewrite omap_app. Qed.

Lemma deduplicated_step done st point response :
  deduplicated done st ->
  exists trace st',
    record_result st point response = (trace, Ok st') /\
    deduplicated (done ++ [response]) st'.
Proof.
  intros [Hparsed Hseen]. destruct response as [|first others].
  - eexists _, st. split; [reflexivity|].
    unfold deduplicated. by rewrite candidates_snoc_empty.
  - destruct (record_result_cons st point first others) as (t & Ht & ->).
    eexists _, _. split; [reflexivity|].
    unfold deduplicated. rewrite candidates_snoc_cons, Ht, first_occurrences_snoc.
    destruct (bool_decide (t ∉ seen_addresses st)) eqn:Hb.
    + apply bool_decide_eq_true in Hb. cbn [parsed_points seen_addresses].
      rewrite decide_False by (by rewrite <- Hseen). split; [by rewrite Hparsed|].
      intros t'. rewrite elem_of_union, elem_of_singleton, elem_of_app,
        list_elem_of_singleton, Hseen.
      split; (intros [?|E]; [by left|right]); [by rewrite E|by apply (inj _) in E].
    + apply bool_decide_eq_false in Hb. apply dec_stable in Hb.
      rewrite decide_True by (by rewrite <- Hseen).
      split; [by rewrite app_nil_r|].
      intros t'. rewrite elem_of_app, list_elem_of_singleton, Hseen.
      split; [by left|]. intros [?|E]; [done|].
      apply (inj _) in E as ->. by apply Hseen.
Qed.

Section GeocoderFacts.
Variable reverse_geocode :
  float * float -> string -> list string -> result (list GeocodeResult).

Lemma geocode_body_answers st point response :
  answers reverse_geocode point response ->
  geocode_body reverse_geocode st point = record_result st point response.
Proof.
  unfold answers, geocode_body. intros ->. cbn [lift mbind M_bind].
  by destruct (record_result st point response).
Qed.

Lemma geocode_loop points : forall responses done st,
  Forall2 (answers reverse_geocode) points responses ->
  deduplicated done st ->
  exists trace st',
    for_each_M (geocode_body reverse_geocode) points st = (trace, Ok st') /\
    deduplicated (done ++ responses) st'.
Proof.
  induction points as [|point points IH]; intros responses done st Hall Hst.
  - apply Forall2_nil_inv_l in Hall as ->. rewrite app_nil_r.
    by exists [], st.
  - apply Forall2_cons_inv_l in Hall as (response & responses' & Hr & Hall & ->).
    destruct (deduplicated_step done st point response Hst)
      as (trace1 & st1 & Hstep & Hst1).
    destruct (IH responses' (done ++ [response]) st1 Hall Hst1)
      as (trace2 & st2 & Hloop & Hst2).
    exists (trace1 ++ trace2), st2. split.
    + cbn [for_each_M]. rewrite (geocode_body_answers st point response Hr).
      rewrite Hstep. cbn [mbind M_bind]. by rewrite Hloop.
    + by rewrite <- app_assoc in Hst2.
Qed.

End GeocoderFacts.

(** C7: when every lookup answers, the geocoder returns the records of the
    answers in first-occurrence order: a record is kept exactly when no
    earlier answer gave the same record, so no two records of the result agree
    on all five fields; for a single answer, its tuple is recorded as seen in
    every case and its record is appended exactly when the tuple was unseen. *)
Theorem reverseGeocode_first_occurrences
    (reverse_geocode :
       float * float -> string -> list string -> result (list GeocodeResult))
    (points : list TrackPoint) (responses : list (list GeocodeResult)) :
  Forall2 (answers reverse_geocode) points responses ->
  (exists trace records,
      reverseGeocode reverse_geocode points
      = (trace, Ok (records, bool_decide (length records = 0%nat))) /\
      records = first_occurrences (candidates responses) /\
      NoDup records /\ NoDup (address_tuple <$> records) /\
      Forall (fun record => record.*1 = address_keys) records) /\
  (forall st point first others,
      exists t st',
        address_tuple (parse_address first) = Ok t /\
        record_result st point (first :: others) = ([], Ok st') /\
        t ∈ seen_addresses st' /\
        (t ∈ seen_addresses st -> st' = st) /\
        (t ∉ seen_addresses st ->
         parsed_points st' = parsed_points st ++ [parse_address first])).
Proof.
  intros Hall. split.
  - destruct (geocode_loop reverse_geocode points responses []
                {| parsed_points := []; seen_addresses := ∅ |} Hall)
      as (trace & st & Hloop & Hparsed & Hseen).
    { split; [done|]. intros t. cbn. by rewrite elem_of_nil. }
    cbn [app] in Hparsed.
    exists (Logged INFO StartingReverseGeocoding :: trace ++ []), (parsed_points st).
    assert (forall record, record ∈ parsed_points st ->
                           exists t, record = address_dict t) as Hshape.
    { intros record. rewrite Hparsed, first_occurrences_elem_of.
      unfold candidates. rewrite list_elem_of_omap.
      intros ([|first others] & _ & Hhead); [done|].
      cbn in Hhead. injection Hhead as <-. apply parse_address_dict. }
    repeat split.
    + unfold reverseGeocode, log_and_reraise, try_except.
      cbn [log mbind M_bind]. by rewrite Hloop.
    + done.
    + rewrite Hparsed. apply first_occurrences_NoDup.
    + apply NoDup_fmap_2_strong; [|rewrite Hparsed; apply first_occurrences_NoDup].
      intros a b Ha Hb E.
      destruct (Hshape a Ha) as [ta ->], (Hshape b Hb) as [tb ->].
      rewrite !address_tuple_dict in E. by injection E as ->.
    + apply Forall_forall. intros record Hrecord.
      destruct (Hshape record Hrecord) as [t ->]. apply address_dict_keys.
  - intros st point first others.
    destruct (record_result_cons st point first others) as (t & Ht & Hres).
    exists t. eexists. rewrite Ht, address_tuple_dict. split; [done|].
    split; [exact Hres|].
    destruct (bool_decide (t ∉ seen_addresses st)) eqn:Hb.
    + apply bool_decide_eq_true in Hb. cbn [seen_addresses parsed_points].
      split; [set_solver|]. split; done.
    + apply bool_decide_eq_false in Hb. apply dec_stable in Hb.
      split; [done|]. split; done.
Qed.

Lemma reverseGeocode_first_occurrences_witness :
  exists trace records,
    reverseGeocode example_geocoder example_points
    = (trace, Ok (records, bool_decide (length records = 0%nat))) /\
    records = first_occurrences (candidates [[tokyo; osaka]; []; [tokyo; osaka]; [osaka]]) /\
    NoDup records /\ NoDup (address_tuple <$> records) /\
    Forall (fun record => record.*1 = address_keys) records.
Proof.
  apply (reverseGeocode_first_occurrences example_geocoder example_points
           [[tokyo; osaka]; []; [tokyo; osaka]; [osaka]]).
  repeat constructor.
Defined.

(** ** Saving and the entry point *)

Lemma M_bind_ok {A B} (f : A -> M B) (m : M A) l a l' r :
  m = (l, Ok a) -> f a = (l', r) -> (m ≫= f) = (l ++ l', r).
Proof. intros -> Hf. cbn [mbind M_bind]. by rewrite Hf. Qed.

Lemma try_except_ok {A} (body : M A) (handler : exn -> M A) l a :
  body = (l, Ok a) -> try_except body handler = (l, Ok a).
Proof. by intros ->. Qed.

Section SaveFacts.
Variables (fs_open : string -> result unit)
          (fs_write : string -> json -> result unit)
          (fs_close : string -> result unit).

(** The save step always returns, with the events of the table. *)
Lemma save_trace value output_file :
  save_reversed_geocode_results_json fs_open fs_write fs_close value output_file
  = (save_events fs_open fs_write fs_close output_file (json_dumps value),
     Ok tt).
Proof.
  unfold save_reversed_geocode_results_json, save_events, open_w, write,
    with_exit.
  destruct (fs_open output_file) as [[]|e1]; [|reflexivity].
  cbn [mbind M_bind].
  destruct (fs_write output_file (json_dumps value)) as [[]|e2],
    (fs_close output_file) as [[]|e3]; reflexivity.
Qed.

(** Whatever raises among the three operations ends up in the last record
    of the save step. *)
Lemma save_events_error output_file document e :
  fs_open output_file = Raise e \/
  (fs_open output_file = Ok tt /\ fs_close output_file = Raise e) \/
  (fs_open output_file = Ok tt /\ fs_write output_file document = Raise e /\
   fs_close output_file = Ok tt) ->
  exists before,
    save_events fs_open fs_write fs_close output_file document
    = before ++ [Logged ERROR (FailedToSaveResults e)] /\
    (FileClosed output_file ∉ before \/
     FileWritten output_file document ∉ before).
Proof.
  unfold save_events.
  intros [Ho|[[Ho Hc]|(Ho & Hw & Hc)]]; rewrite Ho.
  - exists []. split; [done|]. left. apply not_elem_of_nil.
  - rewrite Hc. destruct (fs_write output_file document) as [[]|e2].
    + exists [FileOpened output_file; FileWritten output_file document;
              Logged INFO (SavedResults output_file)].
      split; [done|]. left. intros Hin. apply list_elem_of_In in Hin.
      cbn in Hin. intuition discriminate.
    + exists [FileOpened output_file]. split; [done|]. left.
      intros Hin. apply list_elem_of_In in Hin. cbn in Hin.
      intuition discriminate.
  - rewrite Hw, Hc. exists [FileOpened output_file; FileClosed output_file].
    split; [done|]. right. intros Hin. apply list_elem_of_In in Hin.
    cbn in Hin. intuition discriminate.
Qed.

End SaveFacts.

Section MainFacts.
Variables (parse_gpx_file : string -> result GPX)
          (make_client : string -> result geocoder)
          (fs_open : string -> result unit)
          (fs_write : string -> json -> result unit)
          (fs_close : string -> result unit).

(** Once the client is constructed, [main] is its [try] statement. *)
Lemma main_client gpx_file key iv gmaps :
  make_client key = Ok gmaps ->
  main parse_gpx_file make_client fs_open fs_write fs_close gpx_file key iv
  = main_try parse_gpx_file fs_open fs_write fs_close gmaps gpx_file
      (gpx_file +:+ ".geocoding.json") iv.
Proof.
  intros Hc. unfold main. rewrite Hc. cbn [lift mbind M_bind].
  by destruct (main_try _ _ _ _ _ _ _ _).
Qed.

Lemma main_no_client gpx_file key iv e :
  make_client key = Raise e ->
  main parse_gpx_file make_client fs_open fs_write fs_close gpx_file key iv
  = ([], Raise e).
Proof. intros Hc. unfold main. by rewrite Hc. Qed.

(** The trace of a run whose stages before the save all succeed. *)
Lemma main_reaches_save gmaps gpx_file output_file iv
    l1 gpx_data l2 total_points l3 selected l4 results :
  load_gpx_file parse_gpx_file gpx_file = (l1, Ok gpx_data) ->
  extract_points gpx_data = (l2, Ok total_points) ->
  select_points total_points iv = (l3, Ok selected) ->
  reverseGeocode gmaps selected = (l4, Ok results) ->
  main_try parse_gpx_file fs_open fs_write fs_close gmaps gpx_file
           output_file iv
  = (l1 ++ l2 ++ [Logged INFO (TotalPoints (length total_points))] ++ l3
        ++ [Logged INFO (TotalSelectedPoints (length selected))]
        ++ [Logged INFO (ProcessingPoints (length selected))] ++ l4
        ++ save_events fs_open fs_write fs_close output_file
             (json_dumps (py_of_geocode_results results))
        ++ [Logged INFO CompletedSuccessfully],
     Ok tt).
Proof.
  intros Hload Hextract Hselect Hgeocode. unfold main_try.
  apply try_except_ok.
  eapply M_bind_ok; [exact Hload|].
  eapply M_bind_ok; [exact Hextract|].
  eapply M_bind_ok; [reflexivity|].
  eapply M_bind_ok; [exact Hselect|].
  eapply M_bind_ok; [reflexivity|].
  eapply M_bind_ok; [reflexivity|].
  eapply M_bind_ok; [exact Hgeocode|].
  eapply M_bind_ok; [apply save_trace|].
  reflexivity.
Qed.

End MainFacts.

(** C8: whichever of the three operations on the output file raises (the
    open, the write, or the close at the end of the [with] block, which comes
    after the success message), the save step logs that exception as its
    last record and returns normally; nothing propagates to [main], whose
    trace goes on with the completion message and carries no failure record
    of its own. The file is then not both written and closed. *)
Theorem write_failure_is_swallowed parse_gpx_file make_client
    fs_open fs_write fs_close gpx_file key iv gmaps
    l1 gpx_data l2 total_points l3 selected l4 results e :
  let output_file := gpx_file +:+ ".geocoding.json" in
  let value := py_of_geocode_results results in
  make_client key = Ok gmaps ->
  load_gpx_file parse_gpx_file gpx_file = (l1, Ok gpx_data) ->
  extract_points gpx_data = (l2, Ok total_points) ->
  select_points total_points iv = (l3, Ok selected) ->
  reverseGeocode gmaps selected = (l4, Ok results) ->
  fs_open output_file = Raise e \/
  (fs_open output_file = Ok tt /\ fs_close output_file = Raise e) \/
  (fs_open output_file = Ok tt /\
   fs_write output_file (json_dumps value) = Raise e /\
   fs_close output_file = Ok tt) ->
  exists before,
    (FileClosed output_file ∉ before \/
     FileWritten output_file (json_dumps value) ∉ before) /\
    before ++ [Logged ERROR (FailedToSaveResults e)]
    = save_events fs_open fs_write fs_close output_file (json_dumps value) /\
    save_reversed_geocode_results_json fs_open fs_write fs_close value
      output_file
    = (before ++ [Logged ERROR (FailedToSaveResults e)], Ok tt) /\
    main parse_gpx_file make_client fs_open fs_write fs_close gpx_file key iv
    = (l1 ++ l2 ++ [Logged INFO (TotalPoints (length total_points))] ++ l3
          ++ [Logged INFO (TotalSelectedPoints (length selected));
              Logged INFO (ProcessingPoints (length selected))] ++ l4
          ++ before
          ++ [Logged ERROR (FailedToSaveResults e);
              Logged INFO CompletedSuccessfully],
       Ok tt).
Proof.
  intros output_file value Hclient Hload Hextract Hselect Hgeocode Hfail.
  destruct (save_events_error fs_open fs_write fs_close output_file
              (json_dumps value) e Hfail) as (before & Hevents & Hfile).
  exists before. split; [done|]. split; [done|]. split.
  - by rewrite save_trace, Hevents.
  - rewrite (main_client _ _ _ _ _ _ _ _ _ Hclient).
    rewrite (main_reaches_save _ _ _ _ _ _ _ _ _ _ _ _ _ _ _ _
               Hload Hextract Hselect Hgeocode).
    fold value output_file. rewrite Hevents.
    by rewrite <- !app_assoc.
Qed.

Lemma write_failure_is_swallowed_witness :
  main example_parser example_client fs_ok fs_write_ok fs_disk_full
       "track.gpx" "AIza-example" 5
  = ([Logged INFO (TotalPoints 4);
      Logged INFO (TotalSelectedPoints 4);
      Logged INFO (ProcessingPoints 4);
      Logged INFO StartingReverseGeocoding;
      Logged WARNING (NoGeocodeResult 1.5 0);
      FileOpened "track.gpx.geocoding.json";
      FileWritten "track.gpx.geocoding.json"
        (JArray [JArray [address_json ("Japan", "Tokyo", "", "Chiyoda", "");
                         address_json ("Japan", "Osaka", "", "", "")];
                 JBool false]);
      Logged INFO (SavedResults "track.gpx.geocoding.json");
      Logged ERROR
        (FailedToSaveResults (OtherException "No space left on device"));
      Logged INFO CompletedSuccessfully],
     Ok tt).
Proof.
  destruct (write_failure_is_swallowed
              example_parser example_client fs_ok fs_write_ok fs_disk_full
              "track.gpx" "AIza-example" 5 example_geocoder
              [] (single_segment example_points)
              [] example_points
              [] example_points
              [Logged INFO StartingReverseGeocoding;
               Logged WARNING (NoGeocodeResult 1.5 0)]
              ([address_dict ("Japan", "Tokyo", "", "Chiyoda", "");
                address_dict ("Japan", "Osaka", "", "", "")], false)
              (OtherException "No space left on device")
              eq_refl eq_refl eq_refl eq_refl eq_refl
              (or_intror (or_introl (conj eq_refl eq_refl))))
    as (before & _ & Hevents & _ & Hmain).
  rewrite Hmain.
  match type of Hevents with
  | _ = ?events =>
      change events
        with ([FileOpened "track.gpx.geocoding.json";
               FileWritten "track.gpx.geocoding.json"
                 (JArray
                    [JArray [address_json ("Japan", "Tokyo", "", "Chiyoda", "");
                             address_json ("Japan", "Osaka", "", "", "")];
                     JBool false]);
               Logged INFO (SavedResults "track.gpx.geocoding.json")]
                ++ [Logged ERROR
                      (FailedToSaveResults
                         (OtherException "No space left on device"))])
        in Hevents
  end.
  apply app_inj_tail in Hevents as [-> _]. reflexivity.
Defined.

(** C1, evaluated: [main] hands the pair returned by [reverseGeocode] to the
    save step, so the document written is a two-element array that holds the
    array of records and the emptiness flag, not the array of records. *)
Theorem main_writes_the_pair :
  (forall records flag,
      json_dumps (py_of_geocode_results (records, flag))
      = JArray [json_dumps (py_of_records records); JBool flag]) /\
  main example_parser example_client fs_ok fs_write_ok fs_ok
       "track.gpx" "AIza-example" 5
  = ([Logged INFO (TotalPoints 4);
      Logged INFO (TotalSelectedPoints 4);
      Logged INFO (ProcessingPoints 4);
      Logged INFO StartingReverseGeocoding;
      Logged WARNING (NoGeocodeResult 1.5 0);
      FileOpened "track.gpx.geocoding.json";
      FileWritten "track.gpx.geocoding.json"
        (JArray
           [JArray
              [JObject [("country", JString "Japan");
                        ("administrative_area_level_1", JString "Tokyo");
                        ("administrative_area_level_2", JString "");
                        ("locality", JString "Chiyoda");
                        ("sublocality", JString "")];
               JObject [("country", JString "Japan");
                        ("administrative_area_level_1", JString "Osaka");
                        ("administrative_area_level_2", JString "");
                        ("locality", JString "");
                        ("sublocality", JString "")]];
            JBool false]);
      Logged INFO (SavedResults "track.gpx.geocoding.json");
      FileClosed "track.gpx.geocoding.json";
      Logged INFO CompletedSuccessfully],
     Ok tt).
Proof. split; [reflexivity|]. vm_compute. reflexivity. Qed.

(** * Further properties of the sampler *)

Section SamplerEdges.
Context {P : Type} `{HasTime P}.
Implicit Types (points rest : list P) (st : sampler_state P).

(** The scan subtracts the timestamps of every pair of neighbours. *)
Lemma scan_from_untimed iv rest : forall prev st,
  rest <> [] -> ~ all_timed (prev :: rest) ->
  scan_from iv prev rest st = Raise TypeError.
Proof.
  induction rest as [|p rest IH]; intros prev st Hne Hnt; [done|].
  rewrite scan_from_cons.
  destruct (time_of p) as [tp|] eqn:Hp, (time_of prev) as [tprev|] eqn:Hprev;
    try reflexivity.
  cbn [Datetime.sub_opt mbind result_bind]. apply IH.
  - intros ->. apply Hnt. repeat constructor; by eexists.
  - intros Ht. apply Hnt. constructor; [by eexists|done].
Qed.

Lemma select_points_nonempty_untimed iv p0 rest :
  ~ all_timed (p0 :: rest) ->
  select_points_nonempty (p0 :: rest) iv = Raise TypeError.
Proof.
  intros Hnt. rewrite select_points_nonempty_cons.
  destruct rest as [|p rest].
  - cbn [scan_from mbind result_bind processing_points].
    destruct (time_of p0) as [t0|] eqn:Hp0.
    + exfalso. apply Hnt. repeat constructor. by eexists.
    + unfold last_point_due, py_last.
      cbn [length Nat.ltb Nat.leb last mbind result_bind]. by rewrite Hp0.
  - by rewrite scan_from_untimed.
Qed.

(** With an interval that is not positive every step retains its point. *)
Lemma scan_from_nonpositive iv rest : forall prev retained,
  iv <= 0 -> all_timed (prev :: rest) ->
  scan_from iv prev rest
    {| processing_points := retained; time_sec_passed := 0 |}
  = Ok {| processing_points := retained ++ rest; time_sec_passed := 0 |}.
Proof.
  induction rest as [|p rest IH]; intros prev retained Hiv Ht.
  - by rewrite app_nil_r.
  - rewrite scan_from_cons.
    apply Forall_cons in Ht as [[tprev Hprev] Ht].
    pose proof Ht as Ht'. apply Forall_cons in Ht' as [[tp Hp] _].
    rewrite Hp, Hprev. cbn [Datetime.sub_opt mbind result_bind].
    unfold step_state. cbn [time_sec_passed processing_points].
    pose proof (DatetimeFacts.seconds_range tp tprev).
    destruct (iv * 60 <=? 0 + Datetime.seconds (Datetime.sub tp tprev)) eqn:E;
      [|apply Z.leb_gt in E; lia].
    rewrite (IH p (retained ++ [p]) Hiv Ht), <- app_assoc. reflexivity.
Qed.

Lemma select_points_nonempty_nonpositive iv p0 rest p_last :
  iv <= 0 -> all_timed (p0 :: rest) -> last (p0 :: rest) = Some p_last ->
  select_points_nonempty (p0 :: rest) iv = Ok ((p0 :: rest) ++ [p_last]).
Proof.
  intros Hiv Ht Hlast. rewrite select_points_nonempty_cons.
  rewrite (scan_from_nonpositive iv rest p0 [p0] Hiv Ht).
  cbn [mbind result_bind processing_points app].
  assert (is_Some (time_of p_last)) as [tl Htl].
  { apply (proj1 (Forall_forall _ _) Ht). by apply last_Some_elem_of. }
  pose proof Hlast as Hk. apply last_Some in Hk as [k Hk].
  rewrite Hk at 2. rewrite (last_point_due_eq iv _ k p_last p_last tl tl) by done.
  rewrite DatetimeFacts.seconds_sub_diag. cbn [mbind result_bind].
  destruct (iv * 60 <=? 0) eqn:E; [|apply Z.leb_gt in E; lia].
  unfold py_last. rewrite Hlast. reflexivity.
Qed.

(** On whole seconds the [seconds] fields of two steps are at least the
    [seconds] field of the two steps taken together. *)
Lemma seconds_triangle a b c :
  Datetime.seconds (Datetime.sub (sec a) (sec c))
  <= Datetime.seconds (Datetime.sub (sec a) (sec b))
     + Datetime.seconds (Datetime.sub (sec b) (sec c)).
Proof.
  rewrite !DatetimeFacts.seconds_sub. unfold sec.
  rewrite <- !Z.mul_sub_distr_r, !Z.div_mul by lia.
  replace (a - c) with ((a - b) + (b - c)) by lia.
  rewrite Z.add_mod by lia. apply Z.mod_le; [|lia].
  pose proof (Z.mod_pos_bound (a - b) 86400 ltac:(lia)).
  pose proof (Z.mod_pos_bound (b - c) 86400 ltac:(lia)). lia.
Qed.

(** On whole seconds the accumulated gap bounds the [seconds] distance to
    the point retained last, and stays below the threshold. *)
Lemma scan_from_whole_seconds iv rest : forall prev st front r sprev sr,
  0 < iv -> whole_seconds rest ->
  time_of prev = Some (sec sprev) ->
  processing_points st = front ++ [r] -> time_of r = Some (sec sr) ->
  Datetime.seconds (Datetime.sub (sec sprev) (sec sr)) <= time_sec_passed st ->
  time_sec_passed st < iv * 60 ->
  exists st' front' r' sr' p_last sl,
    scan_from iv prev rest st = Ok st' /\
    processing_points st' = front' ++ [r'] /\ time_of r' = Some (sec sr') /\
    last (prev :: rest) = Some p_last /\ time_of p_last = Some (sec sl) /\
    Datetime.seconds (Datetime.sub (sec sl) (sec sr')) <= time_sec_passed st' /\
    time_sec_passed st' < iv * 60.
Proof.
  induction rest as [|p rest IH];
    intros prev st front r sprev sr Hiv Hw Hprev Hproc Hr Hacc Hlt.
  - exists st, front, r, sr, prev, sprev. by repeat split.
  - apply Forall_cons in Hw as [[sp Hp] Hw].
    rewrite scan_from_cons, Hp, Hprev.
    cbn [Datetime.sub_opt mbind result_bind]. rewrite last_cons_cons.
    pose proof (seconds_triangle sp sprev sr) as Htri.
    unfold step_state.
    destruct (iv * 60 <=? time_sec_passed st
                          + Datetime.seconds (Datetime.sub (sec sp) (sec sprev)))
      eqn:Hdue.
    + apply (IH p _ (processing_points st) p sp sp);
        cbn [processing_points time_sec_passed]; auto; try lia.
      rewrite DatetimeFacts.seconds_sub_diag. lia.
    + apply Z.leb_gt in Hdue.
      apply (IH p _ front r sp sr);
        cbn [processing_points time_sec_passed]; auto; lia.
Qed.

Lemma select_points_nonempty_whole_seconds iv p0 rest :
  0 < iv -> whole_seconds (p0 :: rest) ->
  exists st,
    main_scan (p0 :: rest) iv = Ok st /\
    last_point_due (p0 :: rest) (processing_points st) iv = Ok false /\
    select_points_nonempty (p0 :: rest) iv = Ok (processing_points st).
Proof.
  intros Hiv Hw. apply Forall_cons in Hw as [[s0 Hp0] Hw].
  destruct (scan_from_whole_seconds iv rest p0
              {| processing_points := [p0]; time_sec_passed := 0 |}
              [] p0 s0 s0 Hiv Hw Hp0)
    as (st & front & r & sr & p_last & sl & Hscan & Hproc & Hr & Hlast & Hl
        & Hacc & Hlt); auto; cbn [time_sec_passed]; try lia.
  { rewrite DatetimeFacts.seconds_sub_diag. lia. }
  assert (last_point_due (p0 :: rest) (processing_points st) iv = Ok false)
    as Hdue.
  { rewrite Hproc, (last_point_due_eq iv _ front r p_last (sec sl) (sec sr))
      by done.
    f_equal. apply Z.leb_gt. lia. }
  exists st. rewrite main_scan_cons, select_points_nonempty_cons, Hscan.
  cbn [mbind result_bind]. by rewrite Hdue.
Qed.

(** With a positive interval and pairwise distinct input points the output
    is a subsequence of the input. *)
Lemma select_points_nonempty_sublist iv points out :
  0 < iv -> NoDup points ->
  select_points_nonempty points iv = Ok out -> out `sublist_of` points.
Proof.
  intros Hiv Hnd. unfold select_points_nonempty.
  destruct (main_scan points iv) as [st|e] eqn:Hscan; [|discriminate].
  cbn [mbind result_bind].
  destruct points as [|p0 rest]; [discriminate|].
  pose proof Hscan as Hext. rewrite main_scan_cons in Hext.
  apply scan_from_extends in Hext as (more & Hmore & Hsub).
  cbn [processing_points app] in Hmore.
  assert (processing_points st `sublist_of` p0 :: rest) as Hsub'
    by (rewrite Hmore; by apply sublist_skip).
  destruct (last_point_due (p0 :: rest) (processing_points st) iv)
    as [[|]|e] eqn:Hdue; cbn [mbind result_bind];
    [|by intros [= <-]|discriminate].
  unfold py_last. destruct (last (p0 :: rest)) as [p_last|] eqn:Hlast;
    [|discriminate].
  cbn [mbind result_bind]. intros [= <-].
  pose proof Hlast as Hk. apply last_Some in Hk as [k Hk].
  rewrite Hk in Hsub' |- *.
  apply sublist_app_r in Hsub' as (l1 & l2 & Hl & Hl1 & Hl2).
  apply sublist_cons_r in Hl2 as [Hl2|(l' & -> & Hl')].
  - apply sublist_nil_r in Hl2 as ->. rewrite app_nil_r in Hl. rewrite Hl.
    by apply sublist_app.
  - exfalso.
    apply (retained_last_point_not_due iv (p0 :: rest) st p_last); auto.
    rewrite Hl. apply elem_of_app. right. by left.
Qed.

End SamplerEdges.

(** X1: on a non-empty sequence in which some point lacks a timestamp the
    sampler logs the failure and raises [TypeError]: every point takes part
    in a subtraction, a lone point in the post-scan test. *)
Theorem select_points_untimed_raises (points : list TrackPoint) (iv : Z)
    (p : TrackPoint) :
  p ∈ points -> time p = None ->
  select_points points iv
  = ([Logged ERROR (FailedToSelectPoints TypeError)], Raise TypeError).
Proof.
  intros Hin Hp. destruct points as [|p0 rest]; [by apply elem_of_nil in Hin|].
  rewrite select_points_cons, select_points_nonempty_untimed; [done|].
  intros Ht. destruct (proj1 (Forall_forall _ _) Ht p Hin) as [t Hsome].
  unfold time_of, TrackPoint_time in Hsome. congruence.
Qed.

Lemma select_points_untimed_raises_witness :
  select_points [pt 0; pt 400; untimed_point; pt 900] 5
  = ([Logged ERROR (FailedToSelectPoints TypeError)], Raise TypeError).
Proof.
  apply (select_points_untimed_raises _ 5 untimed_point).
  - apply list_elem_of_In. cbn. tauto.
  - reflexivity.
Defined.

(** X2: when all timestamps are whole seconds and the interval is positive,
    the post-scan test is always false: the sampler returns exactly the
    points the main scan retained, so the last input point is part of the
    output only if the scan itself retained it. *)
Theorem select_points_whole_seconds (p0 : TrackPoint) (rest : list TrackPoint)
    (iv : Z) :
  0 < iv -> whole_seconds (p0 :: rest) ->
  exists st,
    main_scan (p0 :: rest) iv = Ok st /\
    last_point_due (p0 :: rest) (processing_points st) iv = Ok false /\
    select_points (p0 :: rest) iv = ([], Ok (processing_points st)).
Proof.
  intros Hiv Hw.
  destruct (select_points_nonempty_whole_seconds iv p0 rest Hiv Hw)
    as (st & Hscan & Hdue & Hsel).
  exists st. repeat split; [done|done|]. by rewrite select_points_cons, Hsel.
Qed.

Lemma select_points_whole_seconds_witness :
  exists st,
    main_scan [pt 0; pt 100; pt 250] 5 = Ok st /\
    last_point_due [pt 0; pt 100; pt 250] (processing_points st) 5 = Ok false /\
    select_points [pt 0; pt 100; pt 250] 5 = ([], Ok (processing_points st)).
Proof.
  apply (select_points_whole_seconds (pt 0) [pt 100; pt 250] 5); [lia|].
  repeat constructor; by eexists.
Defined.

(** X3: with an interval that is zero or negative the sampler retains every
    timestamped input point and then appends the last one once more. *)
Theorem select_points_nonpositive_interval (p0 p_last : TrackPoint)
    (rest : list TrackPoint) (iv : Z) :
  iv <= 0 -> all_timed (p0 :: rest) -> last (p0 :: rest) = Some p_last ->
  select_points (p0 :: rest) iv = ([], Ok ((p0 :: rest) ++ [p_last])).
Proof.
  intros Hiv Ht Hlast.
  by rewrite select_points_cons,
    (select_points_nonempty_nonpositive iv p0 rest p_last).
Qed.

Lemma select_points_nonpositive_interval_witness :
  select_points [pt 0; pt 1; pt 2] (-1) = ([], Ok [pt 0; pt 1; pt 2; pt 2]).
Proof.
  apply (select_points_nonpositive_interval (pt 0) (pt 2) [pt 1; pt 2] (-1));
    [lia| |reflexivity].
  repeat constructor; by eexists.
Defined.

(** X4: with a positive interval the sampler returns a subsequence of its
    timestamped input: points are kept in input order, none is added and none
    is repeated, so the output is never longer than the input. *)
Theorem select_points_subsequence (points : list TrackPoint) (iv : Z) :
  0 < iv -> all_timed points ->
  exists trace out,
    select_points points iv = (trace, Ok out) /\
    out `sublist_of` points /\ (length out <= length points)%nat.
Proof.
  intros Hiv Ht. destruct points as [|p0 rest].
  - exists [Logged WARNING NoPointsToSelectFrom], []. by repeat split.
  - destruct (select_points_nonempty_head iv p0 rest Ht) as [out' Hout].
    exists [], (p0 :: out'). rewrite select_points_cons, Hout.
    split; [done|].
    assert (p0 :: out' `sublist_of` p0 :: rest) as Hsub.
    { rewrite select_points_nonempty_enumerate in Hout.
      destruct (select_points_nonempty (enumerate (p0 :: rest)) iv)
        as [tagged|e] eqn:Htagged; [|discriminate].
      cbn [fmap result_fmap] in Hout. injection Hout as <-.
      apply (select_points_nonempty_sublist iv) in Htagged;
        [|done|apply enumerate_NoDup].
      apply (fmap_sublist snd) in Htagged.
      unfold enumerate in Htagged. by rewrite enumerate_from_snd in Htagged. }
    split; [done|]. by apply sublist_length.
Qed.

Lemma select_points_subsequence_witness :
  exists trace out,
    select_points [pt 0; pt 200; pt 400; pt 500; pt 1000] 5 = (trace, Ok out) /\
    out `sublist_of` [pt 0; pt 200; pt 400; pt 500; pt 1000] /\
    (length out <= 5)%nat.
Proof.
  apply (select_points_subsequence [pt 0; pt 200; pt 400; pt 500; pt 1000] 5);
    [lia|].
  repeat constructor; by eexists.
Defined.

(** * Further properties of the extractor *)

Section SortingEdges.
Context {P : Type} `{HasTime P}.

(** A point stamped no earlier than all points of the list goes last. *)
Lemma insort_last (x : P) (l : list P) :
  Forall (fun y => time_le y x) l -> insort x l = Ok (l ++ [x]).
Proof.
  induction 1 as [|y l (ty & tx & Hy & Hx & Hle) _ IH]; [reflexivity|].
  cbn [insort]. rewrite Hx, Hy. cbn [Datetime.lt_opt mbind result_bind].
  destruct (tx <? ty) eqn:E; [apply Z.ltb_lt in E; lia|].
  by rewrite IH.
Qed.

Lemma sort_loop_sorted (l : list P) : forall acc,
  StronglySorted time_le (acc ++ l) ->
  for_each (fun acc x => insort x acc) l acc = Ok (acc ++ l).
Proof.
  induction l as [|x l IH]; intros acc Hs; [by rewrite app_nil_r|].
  cbn [for_each]. rewrite insort_last.
  - cbn [mbind result_bind]. rewrite IH; rewrite <- app_assoc; done.
  - apply StronglySorted_app in Hs as (Hle & _ & _).
    apply Forall_forall. intros y Hy. apply Hle; [done|by left].
Qed.

Lemma sorted_by_time_sorted (l : list P) :
  Sorted time_le l -> sorted_by_time l = Ok l.
Proof.
  intros Hs. apply (sort_loop_sorted l []). cbn [app].
  pose proof (@time_le_trans P _) as Htrans. by apply Sorted_StronglySorted.
Qed.

End SortingEdges.

(** X5: a track whose points are already in chronological order through all
    its segments is returned by the extractor as it is. *)
Theorem extract_points_sorted_input (gpx_data : GPX) :
  Sorted time_le (concatenated_points gpx_data) ->
  extract_points gpx_data = ([], Ok (concatenated_points gpx_data)).
Proof.
  intros Hs. by rewrite extract_points_eq, sorted_by_time_sorted.
Qed.

Lemma extract_points_sorted_input_witness :
  extract_points
    {| tracks := [ {| segments := [ {| points := [pt 10; pt 10] |};
                                    {| points := [pt 20] |} ] |};
                   {| segments := [ {| points := [pt 30; pt 45] |} ] |} ] |}
  = ([], Ok [pt 10; pt 10; pt 20; pt 30; pt 45]).
Proof.
  apply (extract_points_sorted_input
           {| tracks := [ {| segments := [ {| points := [pt 10; pt 10] |};
                                           {| points := [pt 20] |} ] |};
                          {| segments := [ {| points := [pt 30; pt 45] |} ] |} ] |}).
  repeat constructor; eexists _, _; (split; [reflexivity|split; [reflexivity|]]);
    vm_compute; discriminate.
Defined.

(** X6: the extractor and the sampler compose: for a track whose points all
    carry a timestamp neither stage raises, the sampled sequence starts with
    the first point of the sorted sequence, and its neighbours are at least
    [interval_minutes * 60] seconds apart. *)
Theorem extract_then_select (gpx_data : GPX) (iv : Z) :
  all_timed (concatenated_points gpx_data) ->
  exists total trace selected,
    extract_points gpx_data = ([], Ok total) /\
    select_points total iv = (trace, Ok selected) /\
    head selected = head total /\
    forall i a b,
      selected !! i = Some a -> selected !! S i = Some b -> spaced iv a b.
Proof.
  intros Ht.
  destruct (sorted_by_time_spec _ Ht) as (total & Htotal & Hs & Hperm & _).
  exists total. rewrite extract_points_eq, Htotal.
  assert (all_timed total) as Ht'.
  { unfold all_timed. by rewrite Hperm. }
  destruct total as [|p0 rest].
  - exists [Logged WARNING NoPointsToSelectFrom], []. by repeat split.
  - apply StronglySorted_Sorted in Hs.
    pose proof Ht' as Hp0. apply Forall_cons in Hp0 as [Hp0 _].
    destruct (select_points_nonempty_spaced iv p0 rest Hs Hp0)
      as (out & Hout & Hsp).
    destruct (select_points_nonempty_head iv p0 rest Ht') as [out' Hout'].
    exists [], out. rewrite select_points_cons, Hout.
    split; [done|]. split; [done|]. split.
    + rewrite Hout in Hout'. by injection Hout' as ->.
    + intros i a b. by apply Sorted_lookup_succ.
Qed.

Lemma extract_then_select_witness :
  exists total trace selected,
    extract_points (single_segment [pt 700; pt 0; pt 350; pt 100])
    = ([], Ok total) /\
    select_points total 5 = (trace, Ok selected) /\
    head selected = head total /\
    forall i a b,
      selected !! i = Some a -> selected !! S i = Some b -> spaced 5 a b.
Proof.
  apply (extract_then_select (single_segment [pt 700; pt 0; pt 350; pt 100]) 5).
  repeat constructor; by eexists.
Defined.

(** * Further properties of the geocoder *)

Lemma M_bind_inv_ok {A B} (m : M A) (f : A -> M B) l b :
  (m ≫= f) = (l, Ok b) ->
  exists l1 a l2, m = (l1, Ok a) /\ f a = (l2, Ok b) /\ l = l1 ++ l2.
Proof.
  destruct m as [l1 [a|e]]; cbn [mbind M_bind]; [|discriminate].
  destruct (f a) as [l2 r] eqn:Hf. intros [= <- ->]. by exists l1, a, l2.
Qed.

Lemma for_each_M_app {A S} (body : S -> A -> M S) (l1 l2 : list A) : forall s,
  for_each_M body (l1 ++ l2) s
  = (for_each_M body l1 s ≫= for_each_M body l2).
Proof.
  induction l1 as [|x l1 IH]; intros s.
  - cbn [app for_each_M mret M_ret mbind M_bind].
    by destruct (for_each_M body l2 s).
  - cbn [app for_each_M]. destruct (body s x) as [l [s'|e]]; [|reflexivity].
    cbn [mbind M_bind]. rewrite IH.
    destruct (for_each_M body l1 s') as [l' [s''|e]]; cbn [mbind M_bind].
    + destruct (for_each_M body l2 s'') as [l'' r]. by rewrite app_assoc.
    + reflexivity.
Qed.

Lemma first_occurrences_length {A} `{EqDecision A} (l : list A) :
  (length (first_occurrences l) <= length l)%nat.
Proof.
  induction l as [|x l IH] using rev_ind; [done|].
  rewrite first_occurrences_snoc, !length_app.
  destruct (decide (x ∈ l)); cbn [length]; lia.
Qed.

Lemma first_occurrences_nil {A} `{EqDecision A} (l : list A) :
  first_occurrences l = [] <-> l = [].
Proof.
  split; [|by intros ->]. destruct l as [|x l]; [done|]. intros E.
  assert (x ∈ first_occurrences (x :: l)) as Hx
    by (apply first_occurrences_elem_of; by left).
  rewrite E in Hx. by apply elem_of_nil in Hx.
Qed.

Lemma omap_length_le {A B} (f : A -> option B) (l : list A) :
  (length (omap f l) <= length l)%nat.
Proof.
  induction l as [|x l IH]; [done|].
  change (omap f (x :: l))
    with (match f x with Some y => y :: omap f l | None => omap f l end).
  destruct (f x); cbn [length]; lia.
Qed.

Lemma candidates_length responses :
  (length (candidates responses) <= length responses)%nat.
Proof. apply omap_length_le. Qed.

Lemma candidates_nil responses :
  candidates responses = [] <-> Forall (fun response => response = []) responses.
Proof.
  induction responses as [|[|first others] responses IH].
  - split; [constructor|done].
  - change (candidates ([] :: responses)) with (candidates responses).
    rewrite IH. split; [by constructor|by inv 1].
  - split; [done|by inv 1].
Qed.

(** One answered lookup logs a warning exactly when it has no candidate. *)
Lemma record_result_trace st point response :
  exists st', record_result st point response
              = (lookup_warning point response, Ok st').
Proof.
  destruct response as [|first others]; [by eexists|].
  destruct (record_result_cons st point first others) as (t & _ & ->).
  by eexists.
Qed.

Section GeocoderEdges.
Variable reverse_geocode :
  float * float -> string -> list string -> result (list GeocodeResult).

Lemma geocode_loop_trace points : forall responses st,
  Forall2 (answers reverse_geocode) points responses ->
  exists st',
    for_each_M (geocode_body reverse_geocode) points st
    = (concat (zip_with lookup_warning points responses), Ok st').
Proof.
  induction points as [|point points IH]; intros responses st Hall.
  - apply Forall2_nil_inv_l in Hall as ->. by exists st.
  - apply Forall2_cons_inv_l in Hall as (response & responses' & Hr & Hall & ->).
    destruct (record_result_trace st point response) as [st1 Hstep].
    destruct (IH responses' st1 Hall) as [st2 Hloop].
    exists st2. cbn [for_each_M zip_with concat].
    rewrite (geocode_body_answers _ st point response Hr), Hstep.
    cbn [mbind M_bind]. by rewrite Hloop.
Qed.

(** The loop returns only if every lookup answered. *)
Lemma geocode_loop_ok points : forall st l st',
  for_each_M (geocode_body reverse_geocode) points st = (l, Ok st') ->
  exists responses, Forall2 (answers reverse_geocode) points responses.
Proof.
  induction points as [|point points IH]; intros st l st' Hloop.
  - by exists [].
  - cbn [for_each_M] in Hloop.
    apply M_bind_inv_ok in Hloop as (l1 & st1 & l2 & Hbody & Hrest & _).
    unfold geocode_body in Hbody.
    apply M_bind_inv_ok in Hbody as (l0 & response & _ & Hr & _ & _).
    injection Hr as _ Hr.
    destruct (IH st1 l2 st' Hrest) as [responses Hall].
    exists (response :: responses). by constructor.
Qed.

(** What the geocoder returns and logs when every lookup answers. *)
Lemma reverseGeocode_answered points responses :
  Forall2 (answers reverse_geocode) points responses ->
  reverseGeocode reverse_geocode points
  = (Logged INFO StartingReverseGeocoding
       :: concat (zip_with lookup_warning points responses),
     Ok (first_occurrences (candidates responses),
         bool_decide (length (first_occurrences (candidates responses)) = 0%nat))).
Proof.
  intros Hall.
  destruct (geocode_loop reverse_geocode points responses []
              {| parsed_points := []; seen_addresses := ∅ |} Hall)
    as (trace & st & Hloop & Hparsed & _).
  { split; [done|]. intros t. cbn. by rewrite elem_of_nil. }
  destruct (geocode_loop_trace points responses
              {| parsed_points := []; seen_addresses := ∅ |} Hall)
    as [st' Htrace].
  rewrite Hloop in Htrace. injection Htrace as -> <-.
  cbn [app] in Hparsed. rewrite <- Hparsed.
  assert (reverseGeocode reverse_geocode points
          = ([Logged INFO StartingReverseGeocoding]
               ++ concat (zip_with lookup_warning points responses) ++ [],
             Ok (parsed_points st,
                 bool_decide (length (parsed_points st) = 0%nat)))) as E.
  { apply try_except_ok. eapply M_bind_ok; [reflexivity|].
    eapply M_bind_ok; [exact Hloop|reflexivity]. }
  by rewrite E, app_nil_r.
Qed.

End GeocoderEdges.

(** X7: when every lookup answers, the geocoder logs its start and one
    warning for every sampled point without candidates, in lookup order; the
    flag it returns beside the records is true exactly when no lookup had a
    candidate, and there are at most as many records as sampled points. *)
Theorem reverseGeocode_log_and_flag
    (reverse_geocode :
       float * float -> string -> list string -> result (list GeocodeResult))
    (points : list TrackPoint) (responses : list (list GeocodeResult)) :
  Forall2 (answers reverse_geocode) points responses ->
  exists records flag,
    reverseGeocode reverse_geocode points
    = (Logged INFO StartingReverseGeocoding
         :: concat (zip_with lookup_warning points responses),
       Ok (records, flag)) /\
    (flag = true <-> Forall (fun response => response = []) responses) /\
    (length records <= length points)%nat.
Proof.
  intros Hall. eexists _, _.
  split; [by apply reverseGeocode_answered|]. split.
  - rewrite bool_decide_eq_true, length_zero_iff_nil, first_occurrences_nil.
    apply candidates_nil.
  - rewrite (Forall2_length _ _ _ Hall).
    etrans; [apply first_occurrences_length|apply candidates_length].
Qed.

Lemma reverseGeocode_log_and_flag_witness :
  exists records flag,
    reverseGeocode example_geocoder example_points
    = (Logged INFO StartingReverseGeocoding
         :: concat (zip_with lookup_warning example_points
                      [[tokyo; osaka]; []; [tokyo; osaka]; [osaka]]),
       Ok (records, flag)) /\
    (flag = true <->
     Forall (fun response => response = [])
            [[tokyo; osaka]; []; [tokyo; osaka]; [osaka]]) /\
    (length records <= length example_points)%nat.
Proof.
  apply (reverseGeocode_log_and_flag example_geocoder example_points
           [[tokyo; osaka]; []; [tokyo; osaka]; [osaka]]).
  repeat constructor.
Defined.

(** X8: a lookup that raises aborts the geocoder: the records gathered so far
    are dropped, the failure is logged after the warnings of the lookups
    before it, and the same exception is raised; the points after it are
    never looked up. *)
Theorem reverseGeocode_lookup_fails
    (reverse_geocode :
       float * float -> string -> list string -> result (list GeocodeResult))
    (before after : list TrackPoint) (point : TrackPoint)
    (responses : list (list GeocodeResult)) (e : exn) :
  Forall2 (answers reverse_geocode) before responses ->
  reverse_geocode (latitude point, longitude point) "ja" result_types
  = Raise e ->
  reverseGeocode reverse_geocode (before ++ point :: after)
  = (Logged INFO StartingReverseGeocoding
       :: concat (zip_with lookup_warning before responses)
       ++ [Logged ERROR (FailedToReverseGeocode e)],
     Raise e).
Proof.
  intros Hall Hfail.
  destruct (geocode_loop_trace reverse_geocode before responses
              {| parsed_points := []; seen_addresses := ∅ |} Hall)
    as [st Hloop].
  assert (geocode_body reverse_geocode st point = ([], Raise e)) as Hbody
    by (unfold geocode_body; by rewrite Hfail).
  assert (for_each_M (geocode_body reverse_geocode) (point :: after) st
          = ([], Raise e)) as Hrest
    by (cbn [for_each_M]; by rewrite Hbody).
  unfold reverseGeocode, log_and_reraise, try_except.
  rewrite for_each_M_app, (M_bind_ok _ _ _ _ _ _ Hloop Hrest).
  cbn [log lift raise mbind M_bind app]. by rewrite !app_nil_r.
Qed.

Lemma reverseGeocode_lookup_fails_witness :
  reverseGeocode
    (fun latlng language result_type =>
       if PrimFloat.ltb (fst latlng) 2 then example_geocoder latlng language
                                              result_type
       else Raise (OtherException "timeout"))
    ([at_latitude 0 0; at_latitude 1.5 400] ++ at_latitude 3 800 :: [at_latitude 0 1200])
  = (Logged INFO StartingReverseGeocoding
       :: concat (zip_with lookup_warning [at_latitude 0 0; at_latitude 1.5 400]
                    [[tokyo; osaka]; []])
       ++ [Logged ERROR (FailedToReverseGeocode (OtherException "timeout"))],
     Raise (OtherException "timeout")).
Proof.
  apply reverseGeocode_lookup_fails; [repeat constructor|reflexivity].
Defined.

(** ** Parsing an address candidate *)

(** One component overwrites the field of its recognized key and no other. *)
Lemma parse_component_get t component k :
  k ∈ address_keys ->
  dict_get k (parse_component (address_dict t) component)
  = if decide (recognized_key component = Some k)
    then Ok (long_name component)
    else dict_get k (address_dict t).
Proof.
  intros Hk. destruct t as [[[[c a1] a2] l] s].
  unfold parse_component, recognized_key. cbn [List.find address_keys].
  unfold address_keys in Hk.
  repeat (apply elem_of_cons in Hk as [->|Hk]);
    [..|by apply elem_of_nil in Hk];
    repeat match goal with
           | |- context [has_type ?key component] =>
               destruct (has_type key component)
           end;
    vm_compute; reflexivity.
Qed.

Lemma parse_components_dict components : forall t,
  exists t', fold_left parse_component components (address_dict t)
             = address_dict t'.
Proof.
  induction components as [|component l IH]; intros t; [by exists t|].
  cbn [fold_left]. destruct (parse_component_dict t component) as [t' ->].
  apply IH.
Qed.

Lemma parse_components_get components k t :
  k ∈ address_keys ->
  dict_get k (fold_left parse_component components (address_dict t))
  = match last (filter (fun component => recognized_key component = Some k)
                       components) with
    | Some component => Ok (long_name component)
    | None => dict_get k (address_dict t)
    end.
Proof.
  intros Hk. induction components as [|x l IH] using rev_ind; [done|].
  rewrite fold_left_app. cbn [fold_left].
  destruct (parse_components_dict l t) as [t' Ht']. rewrite Ht' in IH |- *.
  rewrite (parse_component_get t' x k Hk), filter_app.
  destruct (decide (recognized_key x = Some k)) as [E|E].
  - rewrite filter_cons_True, filter_nil by done. by rewrite last_snoc.
  - rewrite filter_cons_False, filter_nil, app_nil_r by done. exact IH.
Qed.

(** X9: each of the five fields of a parsed address is the name of the last
    component of the candidate whose first recognized type, in the order
    country, administrative_area_level_1, administrative_area_level_2,
    locality, sublocality, is that field, and the empty string when there is
    no such component; a component without a recognized type changes
    nothing. *)
Theorem parse_address_fields (candidate : GeocodeResult) (k : string) :
  k ∈ address_keys ->
  dict_get k (parse_address candidate)
  = Ok (from_option long_name ""
          (last (filter (fun component => recognized_key component = Some k)
                        (address_components candidate)))).
Proof.
  intros Hk. unfold parse_address.
  change empty_address with (address_dict ("", "", "", "", "")).
  rewrite (parse_components_get _ k _ Hk).
  destruct (last _) as [component|]; [done|].
  unfold address_keys in Hk.
  repeat (apply elem_of_cons in Hk as [->|Hk]); try reflexivity.
  by apply elem_of_nil in Hk.
Qed.

Lemma parse_address_fields_witness :
  dict_get "administrative_area_level_1"
    (parse_address
       {| address_components :=
            [component "Kanto" "administrative_area_level_1";
             {| long_name := "Japan";
                types := ["administrative_area_level_1"; "country"] |};
             component "Shibuya" "sublocality_level_2";
             component "Tokyo" "administrative_area_level_1";
             component "Minato" "administrative_area_level_3"] |})
  = Ok "Tokyo".
Proof.
  rewrite parse_address_fields; [reflexivity|].
  apply list_elem_of_In. cbn. tauto.
Defined.

(** * Further properties of the entry point *)

Lemma M_bind_raise {A B} (m : M A) (f : A -> M B) l e :
  m = (l, Raise e) -> (m ≫= f) = (l, Raise e).
Proof. by intros ->. Qed.

Lemma try_except_raise {A} (body : M A) (handler : exn -> M A) l e l' r :
  body = (l, Raise e) -> handler e = (l', r) ->
  try_except body handler = (l ++ l', r).
Proof. intros -> Hh. cbn [try_except]. by rewrite Hh. Qed.

(** ** The stages before the save step touch no file *)

Lemma logs_only_bind {A B} (m : M A) (f : A -> M B) :
  logs_only m -> (forall a, logs_only (f a)) -> logs_only (m ≫= f).
Proof.
  destruct m as [l [a|e]]; cbn [mbind M_bind]; intros Hm Hf; [|done].
  specialize (Hf a). destruct (f a) as [l' r].
  unfold logs_only in *. cbn [fst] in *. by apply Forall_app.
Qed.

Lemma logs_only_try_except {A} (body : M A) (handler : exn -> M A) :
  logs_only body -> (forall e, logs_only (handler e)) ->
  logs_only (try_except body handler).
Proof.
  destruct body as [l [a|e]]; cbn [try_except]; intros Hb Hh; [done|].
  specialize (Hh e). destruct (handler e) as [l' r].
  unfold logs_only in *. cbn [fst] in *. by apply Forall_app.
Qed.

Lemma logs_only_log lv m : logs_only (log lv m).
Proof. by repeat constructor. Qed.

Lemma logs_only_lift {A} (r : result A) : logs_only (lift r).
Proof. constructor. Qed.

Lemma logs_only_log_and_reraise {A} mk (body : M A) :
  logs_only body -> logs_only (log_and_reraise mk body).
Proof.
  intros Hb. apply logs_only_try_except; [done|]. intros e.
  apply logs_only_bind; [apply logs_only_log|]. intros. constructor.
Qed.

Lemma logs_only_load parse_gpx_file file_path :
  logs_only (load_gpx_file parse_gpx_file file_path).
Proof.
  apply logs_only_try_except; [apply logs_only_lift|].
  intros e. destruct e;
    (apply logs_only_bind; [apply logs_only_log|]; intros; constructor).
Qed.

Lemma logs_only_extract gpx_data : logs_only (extract_points gpx_data).
Proof. apply logs_only_log_and_reraise, logs_only_lift. Qed.

Lemma logs_only_select (points : list TrackPoint) iv :
  logs_only (select_points points iv).
Proof.
  apply logs_only_log_and_reraise.
  destruct points; [by repeat constructor|apply logs_only_lift].
Qed.

Lemma logs_only_record_result st point response :
  logs_only (record_result st point response).
Proof.
  destruct response as [|first others]; [by repeat constructor|].
  destruct (record_result_cons st point first others) as (t & _ & ->).
  constructor.
Qed.

Lemma logs_only_reverseGeocode reverse_geocode points :
  logs_only (reverseGeocode reverse_geocode points).
Proof.
  apply logs_only_log_and_reraise.
  apply logs_only_bind; [apply logs_only_log|]. intros _.
  apply logs_only_bind; [|intros; constructor].
  generalize {| parsed_points := []; seen_addresses := ∅ |}.
  induction points as [|point points IH]; intros st; [constructor|].
  cbn [for_each_M]. apply logs_only_bind; [|intros; apply IH].
  apply logs_only_bind; [apply logs_only_lift|].
  intros. apply logs_only_record_result.
Qed.

Lemma logs_only_fst {A} (m : M A) l r : m = (l, r) -> logs_only m -> Forall is_logged l.
Proof. by intros ->. Qed.

(** The records the geocoder returns stand for duplicate-free tuples. *)
Lemma reverseGeocode_ok reverse_geocode points l r :
  reverseGeocode reverse_geocode points = (l, Ok r) ->
  exists tuples,
    NoDup tuples /\
    r = (address_dict <$> tuples, bool_decide (tuples = [])).
Proof.
  intros Hr.
  assert (exists responses, Forall2 (answers reverse_geocode) points responses)
    as [responses Hall].
  { unfold reverseGeocode, log_and_reraise, try_except in Hr.
    cbn [log mbind M_bind] in Hr.
    destruct (for_each_M (geocode_body reverse_geocode) points _)
      as [lt [st|e]] eqn:Hloop; [|discriminate].
    by apply geocode_loop_ok in Hloop. }
  rewrite (reverseGeocode_answered _ _ _ Hall) in Hr. injection Hr as _ <-.
  pose proof (first_occurrences_NoDup (candidates responses)) as Hnd.
  assert (Forall (fun record => exists t, record = address_dict t)
                 (first_occurrences (candidates responses))) as Hshape.
  { apply Forall_forall. intros record.
    rewrite first_occurrences_elem_of. unfold candidates.
    rewrite list_elem_of_omap.
    intros ([|first others] & _ & Hhead); [done|].
    cbn in Hhead. injection Hhead as <-. apply parse_address_dict. }
  revert Hnd Hshape. generalize (first_occurrences (candidates responses)).
  intros records Hnd Hshape.
  assert (exists tuples, records = address_dict <$> tuples) as [tuples ->].
  { clear Hnd. induction Hshape as [|record records [t ->] _ [tuples ->]];
      [by exists []|by exists (t :: tuples)]. }
  exists tuples. split; [by apply NoDup_fmap_1 in Hnd|].
  f_equal. apply bool_decide_ext.
  rewrite length_fmap. apply length_zero_iff_nil.
Qed.

Lemma json_dumps_geocode_results tuples flag :
  json_dumps (py_of_geocode_results (address_dict <$> tuples, flag))
  = JArray [JArray (address_json <$> tuples); JBool flag].
Proof.
  unfold py_of_geocode_results, py_of_records.
  cbn [fst snd json_dumps map]. do 3 f_equal.
  induction tuples as [|[[[[c a1] a2] l] s] tuples IH]; [done|].
  cbn [fmap list_fmap map]. f_equal. exact IH.
Qed.

Section MainCases.
Variables (parse_gpx_file : string -> result GPX)
          (fs_open : string -> result unit)
          (fs_write : string -> json -> result unit)
          (fs_close : string -> result unit).

(** A stage that raises ends the [try] statement: the stage logs, [main]
    logs the same exception, and nothing else runs. *)
Lemma main_try_stopped gmaps gpx_file output_file iv e :
  stage_failure parse_gpx_file gmaps gpx_file iv = Some e ->
  exists logs,
    Forall is_logged logs /\
    main_try parse_gpx_file fs_open fs_write fs_close gmaps gpx_file
             output_file iv
    = (logs ++ [Logged ERROR (MainFunctionFailed e)], Ok tt).
Proof.
  unfold stage_failure, main_try.
  destruct (load_gpx_file parse_gpx_file gpx_file) as [l1 [gpx_data|e1]]
    eqn:Hload.
  2:{ intros [= ->]. exists l1.
      split; [by eapply logs_only_fst, logs_only_load|].
      eapply try_except_raise; [|reflexivity]. reflexivity. }
  pose proof (logs_only_fst _ _ _ Hload (logs_only_load _ _)) as H1.
  destruct (extract_points gpx_data) as [l2 [total|e2]] eqn:Hextract.
  2:{ intros [= ->]. exists (l1 ++ l2). split.
      { apply Forall_app. split; [done|].
        by eapply logs_only_fst, logs_only_extract. }
      eapply try_except_raise; [|reflexivity].
      cbn [mbind M_bind]. by rewrite Hextract. }
  pose proof (logs_only_fst _ _ _ Hextract (logs_only_extract _)) as H2.
  destruct (select_points total iv) as [l3 [selected|e3]] eqn:Hselect.
  2:{ intros [= ->].
      exists (l1 ++ l2 ++ [Logged INFO (TotalPoints (length total))] ++ l3).
      split.
      { repeat (apply Forall_app; split); try done; [by repeat constructor|].
        by eapply logs_only_fst, logs_only_select. }
      eapply try_except_raise; [|reflexivity].
      cbn [mbind M_bind]. rewrite Hextract. cbn [log mbind M_bind].
      by rewrite Hselect. }
  pose proof (logs_only_fst _ _ _ Hselect (logs_only_select _ _)) as H3.
  destruct (reverseGeocode gmaps selected) as [l4 [results|e4]] eqn:Hgeocode;
    [discriminate|].
  intros [= ->].
  exists (l1 ++ l2 ++ [Logged INFO (TotalPoints (length total))] ++ l3
             ++ [Logged INFO (TotalSelectedPoints (length selected))]
             ++ [Logged INFO (ProcessingPoints (length selected))] ++ l4).
  split.
  { repeat (apply Forall_app; split); try done; try by repeat constructor.
    by eapply logs_only_fst, logs_only_reverseGeocode. }
  eapply try_except_raise; [|reflexivity].
  cbn [mbind M_bind]. rewrite Hextract. cbn [log mbind M_bind].
  rewrite Hselect. cbn [log mbind M_bind app]. by rewrite Hgeocode.
Qed.

(** When no stage raises the [try] statement reaches the save step, which
    is handed the pair of the records and the flag. *)
Lemma main_try_completed gmaps gpx_file output_file iv :
  stage_failure parse_gpx_file gmaps gpx_file iv = None ->
  exists logs tuples,
    Forall is_logged logs /\ NoDup tuples /\
    main_try parse_gpx_file fs_open fs_write fs_close gmaps gpx_file
             output_file iv
    = (logs
         ++ save_events fs_open fs_write fs_close output_file
              (JArray [JArray (address_json <$> tuples);
                       JBool (bool_decide (tuples = []))])
         ++ [Logged INFO CompletedSuccessfully],
       Ok tt).
Proof.
  unfold stage_failure.
  destruct (load_gpx_file parse_gpx_file gpx_file) as [l1 [gpx_data|e1]]
    eqn:Hload; [|discriminate].
  destruct (extract_points gpx_data) as [l2 [total|e2]] eqn:Hextract;
    [|discriminate].
  destruct (select_points total iv) as [l3 [selected|e3]] eqn:Hselect;
    [|discriminate].
  destruct (reverseGeocode gmaps selected) as [l4 [results|e4]] eqn:Hgeocode;
    [|discriminate].
  intros _.
  pose proof (logs_only_fst _ _ _ Hload (logs_only_load _ _)) as H1.
  pose proof (logs_only_fst _ _ _ Hextract (logs_only_extract _)) as H2.
  pose proof (logs_only_fst _ _ _ Hselect (logs_only_select _ _)) as H3.
  pose proof (logs_only_fst _ _ _ Hgeocode (logs_only_reverseGeocode _ _)) as H4.
  destruct (reverseGeocode_ok _ _ _ _ Hgeocode) as (tuples & Hnd & ->).
  exists (l1 ++ l2 ++ [Logged INFO (TotalPoints (length total))] ++ l3
             ++ [Logged INFO (TotalSelectedPoints (length selected))]
             ++ [Logged INFO (ProcessingPoints (length selected))] ++ l4),
         tuples.
  split.
  { repeat (apply Forall_app; split); try done; by repeat constructor. }
  split; [done|].
  rewrite (main_reaches_save parse_gpx_file fs_open fs_write fs_close
             gmaps gpx_file output_file iv _ _ _ _ _ _ _ _
             Hload Hextract Hselect Hgeocode).
  rewrite json_dumps_geocode_results. by rewrite <- !app_assoc.
Qed.

End MainCases.



(** X11: the only exception that leaves [main] is the one of the client
    constructor, which runs before the [try] statement: then nothing is
    logged and no stage runs. Once the client is constructed [main] returns
    normally, and the last record of its log is the completion message when
    none of the four stages before the save step raises, and otherwise the
    failure message with the exception of the first stage that raised. *)
Theorem main_raises_only_without_client parse_gpx_file make_client
    fs_open fs_write fs_close (gpx_file key : string) (iv : Z) :
  let run :=
    main parse_gpx_file make_client fs_open fs_write fs_close gpx_file key iv in
  (forall e, make_client key = Raise e -> run = ([], Raise e)) /\
  (forall gmaps,
      make_client key = Ok gmaps ->
      exists trace,
        run = (trace
                 ++ [match stage_failure parse_gpx_file gmaps gpx_file iv with
                     | Some e => Logged ERROR (MainFunctionFailed e)
                     | None => Logged INFO CompletedSuccessfully
                     end],
               Ok tt)).
Proof.
  intros run. split.
  - intros e Hc. subst run. by apply main_no_client.
  - intros gmaps Hc. subst run. rewrite (main_client _ _ _ _ _ _ _ _ _ Hc).
    destruct (stage_failure parse_gpx_file gmaps gpx_file iv) as [e|] eqn:Hstage.
    + destruct (main_try_stopped parse_gpx_file fs_open fs_write fs_close gmaps
                  gpx_file (gpx_file +:+ ".geocoding.json") iv e Hstage)
        as (logs & _ & ->).
      by exists logs.
    + destruct (main_try_completed parse_gpx_file fs_open fs_write fs_close
                  gmaps gpx_file (gpx_file +:+ ".geocoding.json") iv Hstage)
        as (logs & tuples & _ & _ & ->).
      eexists. by rewrite app_assoc.
Qed.

Lemma main_raises_only_without_client_witness :
  main example_parser example_client fs_ok fs_write_ok fs_ok "" "" 5
  = ([], Raise ValueError) /\
  exists trace,
    main (fun _ => Raise FileNotFoundError) example_client fs_ok fs_write_ok
         fs_ok "" "AIza-example" 5
    = (trace ++ [Logged ERROR (MainFunctionFailed FileNotFoundError)], Ok tt).
Proof.
  split.
  - apply (proj1 (main_raises_only_without_client
                    example_parser example_client fs_ok fs_write_ok fs_ok
                    "" "" 5) ValueError).
    reflexivity.
  - apply (proj2 (main_raises_only_without_client
                    (fun _ => Raise FileNotFoundError) example_client fs_ok
                    fs_write_ok fs_ok "" "AIza-example" 5) example_geocoder).
    reflexivity.
Defined.

Lemma load_gpx_file_ok parse_gpx_file file_path gpx_data :
  parse_gpx_file file_path = Ok gpx_data ->
  load_gpx_file parse_gpx_file file_path = ([], Ok gpx_data).
Proof. intros Hp. unfold load_gpx_file. by rewrite Hp. Qed.

(** X12: a track in which some point lacks a timestamp never reaches the
    geocoder: [main] stops with [TypeError], in the extractor when the track
    holds several points and in the sampler when it holds one, logs the
    failure twice (stage and entry point), touches no file and returns. *)
Theorem main_untimed_track parse_gpx_file make_client fs_open fs_write fs_close
    (gpx_file key : string) (iv : Z) (gmaps : geocoder) (gpx_data : GPX)
    (p : TrackPoint) :
  make_client key = Ok gmaps ->
  parse_gpx_file gpx_file = Ok gpx_data ->
  p ∈ concatenated_points gpx_data -> time p = None ->
  main parse_gpx_file make_client fs_open fs_write fs_close gpx_file key iv
  = (if decide (length (concatenated_points gpx_data) = 1%nat)
     then [Logged INFO (TotalPoints 1);
           Logged ERROR (FailedToSelectPoints TypeError);
           Logged ERROR (MainFunctionFailed TypeError)]
     else [Logged ERROR (FailedToExtractPoints TypeError);
           Logged ERROR (MainFunctionFailed TypeError)],
     Ok tt).
Proof.
  intros Hclient Hparse Hin Hp. rewrite (main_client _ _ _ _ _ _ _ _ _ Hclient).
  pose proof (load_gpx_file_ok _ _ _ Hparse) as Hload.
  assert (~ all_timed (concatenated_points gpx_data)) as Hnt.
  { intros Ht. destruct (proj1 (Forall_forall _ _) Ht p Hin) as [t Hsome].
    unfold time_of, TrackPoint_time in Hsome. congruence. }
  destruct (decide (length (concatenated_points gpx_data) = 1%nat)) as [Hone|Hmany].
  - destruct (concatenated_points gpx_data) as [|p0 [|p1 rest]] eqn:Hpoints;
      try discriminate.
    assert (extract_points gpx_data = ([], Ok [p0])) as Hextract
      by (by rewrite extract_points_eq, Hpoints).
    assert (select_points [p0] iv
            = ([Logged ERROR (FailedToSelectPoints TypeError)], Raise TypeError))
      as Hselect
      by (by rewrite select_points_cons, select_points_nonempty_untimed).
    transitivity
      (([] ++ [] ++ [Logged INFO (TotalPoints 1)]
           ++ [Logged ERROR (FailedToSelectPoints TypeError)])
         ++ [Logged ERROR (MainFunctionFailed TypeError)], Ok tt);
      [|reflexivity].
    unfold main_try. eapply try_except_raise; [|reflexivity].
    eapply M_bind_ok; [exact Hload|].
    eapply M_bind_ok; [exact Hextract|].
    eapply M_bind_ok; [reflexivity|].
    by eapply M_bind_raise.
  - assert (extract_points gpx_data
            = ([Logged ERROR (FailedToExtractPoints TypeError)], Raise TypeError))
      as Hextract.
    { rewrite extract_points_eq, sorted_by_time_untimed; [done| |done].
      destruct (concatenated_points gpx_data) as [|p0 [|p1 rest]];
        [by apply elem_of_nil in Hin|done|cbn; lia]. }
    transitivity
      (([] ++ [Logged ERROR (FailedToExtractPoints TypeError)])
         ++ [Logged ERROR (MainFunctionFailed TypeError)], Ok tt);
      [|reflexivity].
    unfold main_try. eapply try_except_raise; [|reflexivity].
    eapply M_bind_ok; [exact Hload|].
    by eapply M_bind_raise.
Qed.

Lemma main_untimed_track_witness :
  main (fun _ => Ok (single_segment [pt 0; untimed_point; pt 400]))
       example_client fs_ok fs_write_ok fs_ok "track.gpx" "AIza-example" 5
  = ([Logged ERROR (FailedToExtractPoints TypeError);
      Logged ERROR (MainFunctionFailed TypeError)],
     Ok tt).
Proof.
  apply (main_untimed_track
           (fun _ => Ok (single_segment [pt 0; untimed_point; pt 400]))
           example_client fs_ok fs_write_ok fs_ok "track.gpx" "AIza-example" 5
           example_geocoder
           (single_segment [pt 0; untimed_point; pt 400]) untimed_point).
  - reflexivity.
  - reflexivity.
  - apply list_elem_of_In. cbn. tauto.
  - reflexivity.
Defined.

(** X13: when the input file cannot be loaded, [main] does nothing else: the
    loader logs the cause (file not found, no permission, or the parser's
    exception), [main] logs the same exception as its failure and returns;
    no later stage runs. *)
Theorem main_load_failure parse_gpx_file make_client fs_open fs_write fs_close
    (gpx_file key : string) (iv : Z) (gmaps : geocoder) (e : exn) :
  make_client key = Ok gmaps ->
  parse_gpx_file gpx_file = Raise e ->
  main parse_gpx_file make_client fs_open fs_write fs_close gpx_file key iv
  = ([Logged ERROR (match e with
                    | FileNotFoundError => FileNotFound gpx_file
                    | PermissionError => NoPermission gpx_file
                    | _ => FailedToLoadGpx e
                    end);
      Logged ERROR (MainFunctionFailed e)],
     Ok tt).
Proof.
  intros Hclient Hparse. rewrite (main_client _ _ _ _ _ _ _ _ _ Hclient).
  unfold main_try, load_gpx_file. rewrite Hparse.
  by destruct e.
Qed.

Lemma main_load_failure_witness :
  main (fun _ => Raise FileNotFoundError) example_client fs_ok fs_write_ok fs_ok
       "missing.gpx" "AIza-example" 5
  = ([Logged ERROR (FileNotFound "missing.gpx");
      Logged ERROR (MainFunctionFailed FileNotFoundError)],
     Ok tt).
Proof.
  apply (main_load_failure (fun _ => Raise FileNotFoundError) example_client
           fs_ok fs_write_ok fs_ok "missing.gpx" "AIza-example" 5
           example_geocoder FileNotFoundError);
    reflexivity.
Defined.

(** X14: a track without any point is not an error: the sampler warns, no
    lookup is made, the save step is handed the empty result with the flag
    set, and the run completes whatever the open, the write and the close of
    the output file do; the events of the save step are those of
    [save_events], which has the success message before a failure of the
    close. *)
Theorem main_empty_track parse_gpx_file make_client fs_open fs_write fs_close
    (gpx_file key : string) (iv : Z) (gmaps : geocoder) (gpx_data : GPX) :
  make_client key = Ok gmaps ->
  parse_gpx_file gpx_file = Ok gpx_data ->
  concatenated_points gpx_data = [] ->
  main parse_gpx_file make_client fs_open fs_write fs_close gpx_file key iv
  = ([Logged INFO (TotalPoints 0);
      Logged WARNING NoPointsToSelectFrom;
      Logged INFO (TotalSelectedPoints 0);
      Logged INFO (ProcessingPoints 0);
      Logged INFO StartingReverseGeocoding]
       ++ save_events fs_open fs_write fs_close
            (gpx_file +:+ ".geocoding.json") (JArray [JArray []; JBool true])
       ++ [Logged INFO CompletedSuccessfully],
     Ok tt).
Proof.
  intros Hclient Hparse Hempty. rewrite (main_client _ _ _ _ _ _ _ _ _ Hclient).
  pose proof (load_gpx_file_ok _ _ _ Hparse) as Hload.
  assert (extract_points gpx_data = ([], Ok [])) as Hextract
    by (by rewrite extract_points_eq, Hempty).
  by rewrite (main_reaches_save parse_gpx_file fs_open fs_write fs_close
                gmaps gpx_file _ iv [] gpx_data [] []
                [Logged WARNING NoPointsToSelectFrom] []
                [Logged INFO StartingReverseGeocoding] ([], true)
                Hload Hextract eq_refl eq_refl).
Qed.

Lemma main_empty_track_witness :
  main (fun _ => Ok {| tracks := [ {| segments := [ {| points := [] |} ] |};
                                   {| segments := [] |} ] |})
       example_client fs_ok fs_write_ok fs_disk_full "empty.gpx"
       "AIza-example" 5
  = ([Logged INFO (TotalPoints 0);
      Logged WARNING NoPointsToSelectFrom;
      Logged INFO (TotalSelectedPoints 0);
      Logged INFO (ProcessingPoints 0);
      Logged INFO StartingReverseGeocoding;
      FileOpened "empty.gpx.geocoding.json";
      FileWritten "empty.gpx.geocoding.json" (JArray [JArray []; JBool true]);
      Logged INFO (SavedResults "empty.gpx.geocoding.json");
      Logged ERROR
        (FailedToSaveResults (OtherException "No space left on device"));
      Logged INFO CompletedSuccessfully],
     Ok tt).
Proof.
  apply (main_empty_track
           (fun _ => Ok {| tracks := [ {| segments := [ {| points := [] |} ] |};
                                       {| segments := [] |} ] |})
           example_client fs_ok fs_write_ok fs_disk_full "empty.gpx"
           "AIza-example" 5 example_geocoder
           {| tracks := [ {| segments := [ {| points := [] |} ] |};
                          {| segments := [] |} ] |});
    reflexivity.
Defined.

(** ** Worked examples *)

(** A negative difference is normalised to a negative day count and a
    non-negative seconds field. *)
Example timedelta_negative :
  Datetime.sub 0 300000000 = Datetime.Timedelta (-1) 86100 0.
Proof. reflexivity. Qed.

(** Three points at 0 s, 150.5 s and 300 s, interval 5 minutes: the scan
    accumulates 150 + 149 whole seconds and retains nothing, the post-scan
    test sees 300 whole seconds and appends the last point. *)
Example select_fractional_seconds :
  let at_us us := {| latitude := 0; longitude := 0; time := Some us |} in
  select_points [at_us 0; at_us 150500000; at_us 300000000] 5
  = ([], Ok [at_us 0; at_us 300000000]).
Proof. vm_compute. reflexivity. Qed.

(** A point without a timestamp cannot be subtracted. *)
Example select_untimed :
  select_points [untimed_point] 5
  = ([Logged ERROR (FailedToSelectPoints TypeError)], Raise TypeError).
Proof. vm_compute. reflexivity. Qed.

(** A track whose only point lacks a timestamp passes the extractor and stops
    the run in the sampler. *)
Example main_single_untimed :
  main (fun _ => Ok (single_segment [untimed_point])) example_client
       fs_ok fs_write_ok fs_ok "track.gpx" "AIza-example" 5
  = ([Logged INFO (TotalPoints 1);
      Logged ERROR (FailedToSelectPoints TypeError);
      Logged ERROR (MainFunctionFailed TypeError)],
     Ok tt).
Proof. vm_compute. reflexivity. Qed.

(** The three ways the save step can fail, on the empty result. *)
Example save_open_fails :
  save_reversed_geocode_results_json fs_denied fs_write_ok fs_ok
    (py_of_geocode_results ([], true)) "out.json"
  = ([Logged ERROR (FailedToSaveResults PermissionError)], Ok tt).
Proof. reflexivity. Qed.

Example save_write_fails :
  save_reversed_geocode_results_json fs_ok
    (fun _ _ => Raise (OtherException "encode")) fs_ok
    (py_of_geocode_results ([], true)) "out.json"
  = ([FileOpened "out.json"; FileClosed "out.json";
      Logged ERROR (FailedToSaveResults (OtherException "encode"))], Ok tt).
Proof. reflexivity. Qed.

Example save_close_fails :
  save_reversed_geocode_results_json fs_ok fs_write_ok fs_disk_full
    (py_of_geocode_results ([], true)) "out.json"
  = ([FileOpened "out.json";
      FileWritten "out.json" (JArray [JArray []; JBool true]);
      Logged INFO (SavedResults "out.json");
      Logged ERROR
        (FailedToSaveResults (OtherException "No space left on device"))],
     Ok tt).
Proof. reflexivity. Qed.
